(** * Press monitoring: ingestion, deduplication and digest pipeline

    A shallow embedding of [app.py]: the URL classifier, the paginated
    search aggregator, the scan that stores new articles in one
    transaction, the digest notifier, the daily job and the manual
    trigger.  Python values are modelled by the types below; exceptions
    are explicit; the world outside the process (search API, SMTP server,
    clock, database driver, standard library, environment variables) is an
    [env] record. *)

From Stdlib Require Import String Ascii List ZArith Bool Arith Lia.
From Stdlib Require Import Permutation Sorted DecimalString.
Import ListNotations.

Local Open Scope string_scope.
Local Open Scope list_scope.

(** ** Python runtime pieces *)

(** The exceptions (subclasses of [Exception]) that the modelled code can
    meet.  [RequestError] stands for whatever [requests.get] or [r.json()]
    raises; [SMTPError] for whatever the [smtplib] exchange raises;
    [BindError] for what SQLAlchemy raises when the database driver cannot
    bind a value of an INSERT. *)
Inductive exn : Type :=
| ValueError | IndexError | KeyError | AttributeError | TypeError
| RequestError | IntegrityError | BindError | SMTPError.

(** Result of a Python expression: a value or a raised exception. *)
Inductive res (A : Type) : Type :=
| Ok (a : A)
| Raise (x : exn).
Arguments Ok {A} a.
Arguments Raise {A} x.

Definition res_bind {A B} (r : res A) (f : A -> res B) : res B :=
  match r with
  | Ok a => f a
  | Raise x => Raise x
  end.

(** Parsed JSON as Python sees it.  A [JObj] lists the items of the dict
    (keys distinct); numbers are kept as integers, nothing here computes
    with them.  Strings are UTF-8 byte sequences. *)
#[warnings="-register-all"]
Inductive json : Type :=
| JNull
| JBool (b : bool)
| JNum (n : Z)
| JStr (s : string)
| JArr (l : list json)
| JObj (kvs : list (string * json)).

Fixpoint assoc {V} (k : string) (kvs : list (string * V)) : option V :=
  match kvs with
  | [] => None
  | (k', v) :: rest => if String.eqb k k' then Some v else assoc k rest
  end.

(** [v.get(k, default)]: only a dict has the method. *)
Definition py_get (v : json) (k : string) (default : json) : res json :=
  match v with
  | JObj kvs => Ok (match assoc k kvs with Some x => x | None => default end)
  | _ => Raise AttributeError
  end.

Definition is_continuation (c : ascii) : bool :=
  let n := nat_of_ascii c in (128 <=? n)%nat && (n <? 192)%nat.

Fixpoint take_continuation (s : string) : string :=
  match s with
  | String c s' => if is_continuation c then String c (take_continuation s') else EmptyString
  | EmptyString => EmptyString
  end.

(** [v[0]] *)
Definition py_index0 (v : json) : res json :=
  match v with
  | JArr (x :: _) => Ok x
  | JArr [] => Raise IndexError
  | JStr (String c s) => Ok (JStr (String c (take_continuation s)))
  | JStr EmptyString => Raise IndexError
  | JObj _ => Raise KeyError
  | JNull | JBool _ | JNum _ => Raise TypeError
  end.

(** Truth value of a Python object. *)
Definition truthy (v : json) : bool :=
  match v with
  | JNull => false
  | JBool b => b
  | JNum n => negb (n =? 0)%Z
  | JStr s => negb (s =? EmptyString)
  | JArr l => match l with [] => false | _ => true end
  | JObj kvs => match kvs with [] => false | _ => true end
  end.

(** [sub in s] on strings. *)
Fixpoint contains (sub s : string) : bool :=
  prefix sub s ||
  match s with
  | EmptyString => false
  | String _ s' => contains sub s'
  end.

(** [s.replace(old, new)] for a non-empty [old]: left to right, matches do
    not overlap.  [skip] counts the characters of a match still to drop. *)
Fixpoint replace_from (old new : string) (skip : nat) (s : string) : string :=
  match s with
  | EmptyString => EmptyString
  | String c s' =>
      match skip with
      | S k => replace_from old new k s'
      | O =>
          if prefix old s
          then (new ++ replace_from old new (String.length old - 1) s')%string
          else String c (replace_from old new 0 s')
      end
  end.

Definition replace (old new s : string) : string := replace_from old new 0 s.

(** ** [urllib.parse.urlparse(url).netloc]

    Follows [urlsplit] of CPython 3: leading C0 control characters and
    spaces are stripped, tab, CR and LF are removed, a leading scheme is
    split off, and after [//] the netloc runs up to the first of [/?#].
    The netloc then passes three checks, each of which raises [ValueError]:
    a bracket of one kind only; with both brackets, the check of the
    bracketed host; and [_checknetloc] for a netloc that is not ASCII.

    What the program itself does not fix is kept in [pylib]: the two
    functions of the standard library that these checks call,
    [ipaddress.ip_address] and [unicodedata.normalize], and the check of a
    bracketed host, which the releases of CPython do in three ways. *)

(** The class of the object [ipaddress.ip_address] returns. *)
Inductive ip_kind : Type := IPv4Address | IPv6Address.

(** What [urlsplit] does with a netloc that has both brackets: nothing
    (releases without [_check_bracketed_host]); [_check_bracketed_host] on
    the text between the first opening bracket and the closing bracket
    after it; or [_check_bracketed_netloc] on the netloc (the releases with
    that function). *)
Inductive bracket_check : Type :=
| BracketsUnchecked
| BracketedHost
| BracketedNetloc.

(** [ip_address s] is [None] when [ipaddress.ip_address(s)] raises
    [ValueError]; [normalize_NFKC s] is [unicodedata.normalize("NFKC", s)]. *)
Record pylib : Type := mkLib {
  bracket_rule : bracket_check;
  ip_address : string -> option ip_kind;
  normalize_NFKC : string -> string
}.

Definition is_c0_or_space (c : ascii) : bool := (nat_of_ascii c <=? 32)%nat.

Fixpoint lstrip_c0 (s : string) : string :=
  match s with
  | String c s' => if is_c0_or_space c then lstrip_c0 s' else s
  | EmptyString => EmptyString
  end.

Definition is_unsafe_byte (c : ascii) : bool :=
  let n := nat_of_ascii c in (n =? 9)%nat || (n =? 10)%nat || (n =? 13)%nat.

Fixpoint remove_unsafe (s : string) : string :=
  match s with
  | String c s' => if is_unsafe_byte c then remove_unsafe s' else String c (remove_unsafe s')
  | EmptyString => EmptyString
  end.

Definition is_alpha (c : ascii) : bool :=
  let n := nat_of_ascii c in
  ((65 <=? n) && (n <=? 90) || (97 <=? n) && (n <=? 122))%nat.

Definition is_scheme_char (c : ascii) : bool :=
  let n := nat_of_ascii c in
  (is_alpha c || (48 <=? n) && (n <=? 57) || (n =? 43) || (n =? 45) || (n =? 46))%nat.

(** The text after [scheme:] when [s] starts with scheme characters
    followed by a colon; [None] when there is no such colon. *)
Fixpoint after_scheme (s : string) : option string :=
  match s with
  | EmptyString => None
  | String c s' =>
      if (nat_of_ascii c =? 58)%nat then Some s'
      else if is_scheme_char c then after_scheme s'
      else None
  end.

Definition split_scheme (url : string) : string :=
  match url with
  | String c rest =>
      if is_alpha c then
        match after_scheme rest with
        | Some u => u
        | None => url
        end
      else url
  | EmptyString => url
  end.

Definition is_delim (c : ascii) : bool :=
  let n := nat_of_ascii c in (n =? 47)%nat || (n =? 63)%nat || (n =? 35)%nat.

(** [_splitnetloc]: the characters up to the first of [/], [?], [#]. *)
Fixpoint upto_delim (s : string) : string :=
  match s with
  | String c s' => if is_delim c then EmptyString else String c (upto_delim s')
  | EmptyString => EmptyString
  end.

(** [s.partition(c)]: the text before the first [c], whether there is one,
    and the text after it. *)
Fixpoint str_partition (c : ascii) (s : string) : string * bool * string :=
  match s with
  | EmptyString => (EmptyString, false, EmptyString)
  | String a s' =>
      if Ascii.eqb a c then (EmptyString, true, s')
      else
        let '(before, found, after) := str_partition c s' in
        (String a before, found, after)
  end.

(** [s.rpartition(c)[2]]: the text after the last [c]; [s] when it has
    none. *)
Fixpoint str_rpartition_tail (c : ascii) (s : string) : string :=
  match s with
  | EmptyString => EmptyString
  | String a s' =>
      if contains (String c EmptyString) s' then str_rpartition_tail c s'
      else if Ascii.eqb a c then s'
      else s
  end.

Definition is_hex (c : ascii) : bool :=
  let n := nat_of_ascii c in
  ((48 <=? n) && (n <=? 57) || (65 <=? n) && (n <=? 70) || (97 <=? n) && (n <=? 102))%nat.

Fixpoint skip_hex (s : string) : string :=
  match s with
  | String c s' => if is_hex c then skip_hex s' else s
  | EmptyString => EmptyString
  end.

(** [re.match(r"\Av[a-fA-F0-9]+\..+\Z", hostname)]: a [v], hexadecimal
    digits (one at least), a dot, and then one character at least, none of
    them a line feed. *)
Definition is_ipvfuture (hostname : string) : bool :=
  match hostname with
  | String "v" (String c rest) =>
      is_hex c &&
      match skip_hex rest with
      | String "." (String d tail) =>
          negb (contains (String "010" EmptyString) (String d tail))
      | _ => false
      end
  | _ => false
  end.

(** [_check_bracketed_host] *)
Definition check_bracketed_host (l : pylib) (hostname : string) : res unit :=
  if prefix "v" hostname then
    if is_ipvfuture hostname then Ok tt else Raise ValueError
  else
    match ip_address l hostname with
    | None => Raise ValueError
    | Some IPv4Address => Raise ValueError
    | Some IPv6Address => Ok tt
    end.

(** [_check_bracketed_netloc] *)
Definition check_bracketed_netloc (l : pylib) (netloc : string) : res unit :=
  let hostname_and_port := str_rpartition_tail "@" netloc in
  let '(before_bracket, have_open_br, bracketed) := str_partition "[" hostname_and_port in
  if have_open_br then
    if negb (before_bracket =? EmptyString) then Raise ValueError
    else
      let '(hostname, _, port) := str_partition "]" bracketed in
      if negb (port =? EmptyString) && negb (prefix ":" port) then Raise ValueError
      else check_bracketed_host l hostname
  else
    let '(hostname, _, _) := str_partition ":" hostname_and_port in
    check_bracketed_host l hostname.

(** The check of a netloc with both brackets, by release. *)
Definition check_brackets (l : pylib) (netloc : string) : res unit :=
  match bracket_rule l with
  | BracketsUnchecked => Ok tt
  | BracketedHost =>
      let '(_, _, after_open) := str_partition "[" netloc in
      let '(bracketed_host, _, _) := str_partition "]" after_open in
      check_bracketed_host l bracketed_host
  | BracketedNetloc => check_bracketed_netloc l netloc
  end.

(** [s.isascii()] *)
Fixpoint isascii (s : string) : bool :=
  match s with
  | EmptyString => true
  | String c s' => (nat_of_ascii c <? 128)%nat && isascii s'
  end.

(** [_checknetloc] *)
Definition checknetloc (l : pylib) (netloc : string) : res unit :=
  if (netloc =? EmptyString) || isascii netloc then Ok tt
  else
    let n := replace "@" EmptyString netloc in
    let n := replace ":" EmptyString n in
    let n := replace "#" EmptyString n in
    let n := replace "?" EmptyString n in
    let netloc2 := normalize_NFKC l n in
    if n =? netloc2 then Ok tt
    else if existsb (fun c => contains c netloc2) ["/"; "?"; "#"; "@"; ":"]
    then Raise ValueError
    else Ok tt.

Definition urlparse_netloc (l : pylib) (url : string) : res string :=
  let url := remove_unsafe (lstrip_c0 url) in
  let url := split_scheme url in
  match url with
  | String "/" (String "/" rest) =>
      let netloc := upto_delim rest in
      if (contains "[" netloc && negb (contains "]" netloc))
         || (contains "]" netloc && negb (contains "[" netloc))
      then Raise ValueError
      else
        res_bind (if contains "[" netloc && contains "]" netloc
                  then check_brackets l netloc
                  else Ok tt) (fun _ =>
        res_bind (checknetloc l netloc) (fun _ =>
        Ok netloc))
  | _ => Ok EmptyString
  end.

(** ** Configuration tables (lines 66-93) *)

(** A dict keeps insertion order, so [NEWS_MAP.items()] is this list. *)
Definition NEWS_MAP : list (string * string) :=
  [ ("dailymirror.lk", "Daily Mirror");
    ("ft.lk", "Daily FT");
    ("sundayobserver.lk", "Sunday Observer");
    ("sundaytimes.lk", "Sunday Times");
    ("ceylontoday.lk", "Ceylon Today");
    ("themorning.lk", "The Morning");
    ("dailynews.lk", "Daily News");
    ("island.lk", "The Island");
    ("lankadeepa.lk", "Lanka Deepa");
    ("mawbima.lk", "Maubima");
    ("ada.lk", "Ada");
    ("aruna.lk", "Aruna");
    ("divaina.lk", "Divaina");
    ("dinamina.lk", "Dinamina") ].

Definition dquote : string := String "034"%char EmptyString.

(** A phrase between double quotes, as the query literals are written. *)
Definition quoted (phrase : string) : string := (dquote ++ phrase ++ dquote)%string.

Definition ENGLISH_QUERIES : list string :=
  [ quoted "cargills"; quoted "cargils" ].

Definition SINHALA_QUERIES : list string :=
  [ quoted "කාගිල්ස්"; quoted "කාගීල්ස්" ].

Definition SINHALA_DOMAINS : list string :=
  [ "lankadeepa.lk"; "mawbima.lk"; "ada.lk"; "aruna.lk"; "divaina.lk"; "dinamina.lk" ].

(** ** Classifier (lines 95-107) *)

(** [urlparse(url).netloc.replace("www.", "")] *)
Definition domain_of (l : pylib) (url : string) : res string :=
  res_bind (urlparse_netloc l url) (fun netloc => Ok (replace "www." EmptyString netloc)).

(** The [for key, name in ...: if key in domain: return name] loop. *)
Fixpoint first_name (domain : string) (pairs : list (string * string)) : string :=
  match pairs with
  | [] => "Unknown"
  | (key, name) :: rest => if contains key domain then name else first_name domain rest
  end.

Definition get_newspaper_name (l : pylib) (url : string) : res string :=
  res_bind (domain_of l url) (fun domain => Ok (first_name domain NEWS_MAP)).

Fixpoint language_loop (domain : string) (ds : list string) : string :=
  match ds with
  | [] => "English"
  | d :: rest => if contains d domain then "Sinhala" else language_loop domain rest
  end.

Definition get_language (l : pylib) (url : string) : res string :=
  res_bind (domain_of l url) (fun domain => Ok (language_loop domain SINHALA_DOMAINS)).

(** The classifier as the specification words it: the host with one
    leading "www." stripped, then the first key that is a substring.  The
    host is taken to be the netloc the code extracts. *)
Definition strip_leading_www (host : string) : string :=
  if prefix "www." host then substring 4 (String.length host - 4) host else host.

Definition newspaper_for_spec (l : pylib) (url : string) : res string :=
  res_bind (urlparse_netloc l url)
    (fun host => Ok (first_name (strip_leading_www host) NEWS_MAP)).

(** ** Data model (lines 45-56) *)

(** The column values of a [PressArticle]: those of the object that the
    constructor call at lines 232-240 builds, or those of a row of the
    table.  [title] and [snippet] are [item.get(...)] results, [None] when
    the key is absent; [publish_date] is whatever the metadata holds in a
    new object, and a text or NULL ([JStr] or [JNull]) in a row.  The code
    never assigns to an attribute afterwards. *)
Record PressArticle : Type := mkArticle {
  newspaper : string;
  language : string;
  title : option string;
  url : string;
  snippet : option string;
  query_used : string;
  publish_date : json
}.

(** A row of [press_articles]: the object's columns and [created_at], which
    the column default [datetime.utcnow] fills in when the row is inserted
    (microseconds since the epoch).  The surrogate [id] grows with insertion
    order; rows are kept in that order and [id] is not stored. *)
Record row : Type := mkRow {
  art : PressArticle;
  created_at : Z
}.

Definition row_url (r : row) : string := url (art r).

(** One result of the search API (section 6 of the specification): [link],
    [title] and [snippet] are strings when present; [pagemap] is kept as
    parsed JSON because the scan walks into it. *)
Record item : Type := mkItem {
  link : option string;
  item_title : option string;
  item_snippet : option string;
  pagemap : option json
}.

(** What [requests.get(...).json()] comes to: an exception, or a reply
    object whose [items] member, when present, is an array. *)
Inductive response : Type :=
| ApiFail (x : exn)
| ApiPage (items : option (list item)).

(** The e-mail handed to [server.send_message]; the HTML table is kept as
    its rows, each the five interpolated values. *)
Record html_row : Type := mkHtmlRow {
  td_newspaper : string;
  td_language : string;
  td_title : option string;
  td_pub : json;
  td_url : string
}.

Record message : Type := mkMessage {
  Subject : string;
  From : string;
  To : string;
  rows : list html_row
}.

(** The lines the program prints. *)
Inductive log_line : Type :=
| LogScanning (domain : string)
| LogQuery (query : string)
| LogScanError (x : exn)
| LogNoCredentials
| LogNoArticles
| LogEmailSent
| LogEmailError (x : exn)
| LogNoRecent.

(** What the process does that can be seen from outside, oldest first.
    [Notify] records an entry into [send_email] with its arguments; the
    other events are a GET to the search API, an exchange with the SMTP
    server, and a printed line. *)
Inductive event : Type :=
| Get (q : string) (start : Z)
| Notify (articles : list PressArticle) (subject : string)
| Smtp (msg : message)
| Print (line : log_line).

(** The outside world.  [api q start] answers the request with parameters
    [q] and [start] ([key] and [cx] are fixed); [smtp msg] is [Some x] when
    the exchange raises [x]; [clock n] is what the [n]-th call of
    [datetime.utcnow()] returns; [lib] is the standard library as far as
    [urlparse] calls it; [bind_text v] is the text that the database behind
    [DATABASE_URL] stores in a [Text] column for a Python value [v] that is
    neither [None] nor a [str], and [None] when its driver cannot bind
    [v]. *)
Record env : Type := mkEnv {
  api : string -> Z -> response;
  smtp : message -> option exn;
  clock : nat -> Z;
  lib : pylib;
  bind_text : json -> option string;
  EMAIL_USER : option string;
  EMAIL_PASS : option string
}.

(** Process and database state.  [db] holds the committed rows; [txn] the
    rows the open session has inserted and not committed; [pending] the
    objects given to [session.add] and not flushed yet; [new_articles] is
    the local list of the running scan, which outlives the [except] clause:
    each object of the list stands here as the column values that reading
    its attributes gives. *)
Record world : Type := mkWorld {
  db : list row;
  txn : list row;
  pending : list PressArticle;
  new_articles : list PressArticle;
  ticks : nat;
  trace : list event
}.

Definition set_db (v : list row) (w : world) : world :=
  mkWorld v (txn w) (pending w) (new_articles w) (ticks w) (trace w).
Definition set_txn (v : list row) (w : world) : world :=
  mkWorld (db w) v (pending w) (new_articles w) (ticks w) (trace w).
Definition set_pending (v : list PressArticle) (w : world) : world :=
  mkWorld (db w) (txn w) v (new_articles w) (ticks w) (trace w).
Definition set_new_articles (v : list PressArticle) (w : world) : world :=
  mkWorld (db w) (txn w) (pending w) v (ticks w) (trace w).
Definition set_ticks (v : nat) (w : world) : world :=
  mkWorld (db w) (txn w) (pending w) (new_articles w) v (trace w).
Definition add_events (evs : list event) (w : world) : world :=
  mkWorld (db w) (txn w) (pending w) (new_articles w) (ticks w) (trace w ++ evs).
Definition log (ev : event) (w : world) : world := add_events [ev] w.

(** ** Statements with state and exceptions

    [None] is a loop that ran out of fuel; otherwise the statement ends
    normally or by raising, in a new state. *)
Definition M (A : Type) : Type := world -> option (res A * world).

Definition ret {A} (a : A) : M A := fun w => Some (Ok a, w).

Definition raise {A} (x : exn) : M A := fun w => Some (Raise x, w).

Definition lift {A} (r : res A) : M A := fun w => Some (r, w).

Definition bind {A B} (m : M A) (f : A -> M B) : M B :=
  fun w =>
    match m w with
    | None => None
    | Some (Ok a, w') => f a w'
    | Some (Raise x, w') => Some (Raise x, w')
    end.

Notation "x <- m ;; k" := (bind m (fun x => k))
  (at level 61, m at next level, right associativity).
Notation "m ;; k" := (bind m (fun _ => k))
  (at level 61, right associativity).

(** [try: m  except Exception as x: h x] *)
Definition try_except {A} (m : M A) (h : exn -> M A) : M A :=
  fun w =>
    match m w with
    | None => None
    | Some (Ok a, w') => Some (Ok a, w')
    | Some (Raise x, w') => h x w'
    end.

(** [try: m  finally: f] *)
Definition finally {A} (m : M A) (f : M unit) : M A :=
  fun w =>
    match m w with
    | None => None
    | Some (r, w') =>
        match f w' with
        | None => None
        | Some (Ok _, w'') => Some (r, w'')
        | Some (Raise x, w'') => Some (Raise x, w'')
        end
    end.

Definition get {A} (f : world -> A) : M A := fun w => Some (Ok (f w), w).

Definition modify (f : world -> world) : M unit := fun w => Some (Ok tt, f w).

Definition emit (ev : event) : M unit := modify (log ev).

Fixpoint for_each {A} (l : list A) (body : A -> M unit) : M unit :=
  match l with
  | [] => ret tt
  | x :: l' => body x ;; for_each l' body
  end.

(** ** The session (SQLAlchemy, [sessionmaker(bind=engine)], so autoflush
    is on) *)

(** [SessionLocal()]: a new session, nothing pending, no transaction. *)
Definition SessionLocal : M unit :=
  modify (fun w => set_pending [] (set_txn [] w)).

Definition session_add (a : PressArticle) : M unit :=
  modify (fun w => set_pending (pending w ++ [a]) w).

Definition utcnow (e : env) : M Z :=
  fun w => Some (Ok (clock e (ticks w)), set_ticks (S (ticks w)) w).

Definition has_url (u : string) (rs : list row) : bool :=
  existsb (fun r => String.eqb (row_url r) u) rs.

(** What the [Text] column [publish_date] holds after an INSERT of the
    value [v]: [None] gives NULL and a [str] is stored as it is; any other
    value (a number, a list, a dict from the metadata) goes to the driver,
    which stores a text for it or cannot bind it. *)
Definition stored_date (e : env) (v : json) : option json :=
  match v with
  | JNull => Some JNull
  | JStr s => Some (JStr s)
  | _ => option_map JStr (bind_text e v)
  end.

(** The column values of the row that an INSERT of the object makes. *)
Definition as_stored (e : env) (a : PressArticle) : option PressArticle :=
  option_map
    (mkArticle (newspaper a) (language a) (title a) (url a) (snippet a) (query_used a))
    (stored_date e (publish_date a)).

(** INSERT of one object.  The column default [datetime.utcnow] is called
    when the statement is prepared; then the driver binds the values, and
    the unique index on [url] refuses a second row with the same URL. *)
Definition insert_row (e : env) (a : PressArticle) : M unit :=
  now <- utcnow e ;;
  match as_stored e a with
  | None => raise BindError
  | Some stored =>
      seen <- get (fun w => has_url (url stored) (db w ++ txn w)) ;;
      if seen then raise IntegrityError
      else modify (fun w => set_txn (txn w ++ [mkRow stored now]) w)
  end.

(** [session.flush()]: the pending objects are inserted in the order they
    were added. *)
Definition session_flush (e : env) : M unit :=
  ps <- get pending ;;
  for_each ps (insert_row e) ;;
  modify (set_pending []).

(** [session.query(PressArticle).filter_by(url=u).first()]: autoflush, then
    the SELECT inside the transaction. *)
Definition query_first_by_url (e : env) (u : string) : M (option row) :=
  session_flush e ;;
  get (fun w => find (fun r => String.eqb (row_url r) u) (db w ++ txn w)).

(** What reading the attributes of an object gives once the session has
    expired it: the columns of its row among [rows].  The rows of one
    transaction have pairwise different URLs, so the URL finds the row; an
    object without a row keeps its values. *)
Definition reload (rows : list row) (a : PressArticle) : PressArticle :=
  match find (fun r => String.eqb (row_url r) (url a)) rows with
  | Some r => art r
  | None => a
  end.

(** [session.commit()]: flush, COMMIT, and, the session being made with
    [expire_on_commit] on, every object of the session is expired, so that
    its attributes are read from its row from then on.  The objects of the
    session are those of [new_articles].  Whether an object can still be
    read after [session.close()] (it cannot when nothing has read it while
    the session was open) is outside this model. *)
Definition session_commit (e : env) : M unit :=
  session_flush e ;;
  modify (fun w => mkWorld (db w ++ txn w) [] (pending w)
                     (map (reload (txn w)) (new_articles w)) (ticks w) (trace w)).

Definition session_rollback : M unit :=
  modify (fun w => set_pending [] (set_txn [] w)).

(** [session.close()] releases the connection; an open transaction is
    rolled back. *)
Definition session_close : M unit :=
  modify (fun w => set_pending [] (set_txn [] w)).

(** [ORDER BY created_at DESC]; rows with equal keys keep their order. *)
Fixpoint insert_desc (r : row) (l : list row) : list row :=
  match l with
  | [] => [r]
  | r' :: l' =>
      if (created_at r <? created_at r')%Z then r' :: insert_desc r l' else r :: l
  end.

Definition order_by_created_at_desc (l : list row) : list row :=
  fold_right insert_desc [] l.

Definition in_window (since_utc now_utc : Z) (r : row) : bool :=
  ((since_utc <=? created_at r) && (created_at r <=? now_utc))%Z.

(** The query at lines 279-285. *)
Definition query_recent (e : env) (since_utc now_utc : Z) : M (list row) :=
  session_flush e ;;
  get (fun w => order_by_created_at_desc (filter (in_window since_utc now_utc) (db w ++ txn w))).

(** [session.query(PressArticle).order_by(PressArticle.id.desc()).all()] *)
Definition query_all_by_id_desc (e : env) : M (list row) :=
  session_flush e ;;
  get (fun w => rev (db w ++ txn w)).

(** ** Search aggregator (lines 109-135) *)

Definition search_q (query site : string) : string :=
  (query ++ " site:" ++ site)%string.

(** [data = requests.get(GOOGLE_URL, params=params).json()], reduced to
    [data.get("items")]. *)
Definition requests_get_json (e : env) (q : string) (start : Z) : M (option (list item)) :=
  emit (Get q start) ;;
  match api e q start with
  | ApiFail x => raise x
  | ApiPage items => ret items
  end.

(** The [while True] loop; [fuel] bounds the number of requests. *)
Fixpoint google_search_loop (e : env) (fuel : nat) (q : string) (start : Z)
    (results : list item) : M (list item) :=
  match fuel with
  | O => fun _ => None
  | S fuel' =>
      data <- requests_get_json e q start ;;
      match data with
      | None => ret results
      | Some items =>
          let results := results ++ items in
          if (Z.of_nat (List.length items) <? 10)%Z then ret results
          else google_search_loop e fuel' q (start + 10)%Z results
      end
  end.

Definition google_search (e : env) (fuel : nat) (query site : string) : M (list item) :=
  google_search_loop e fuel (search_q query site) 1%Z [].

(** ** E-mail (lines 140-198) *)

Definition MANUAL_SUBJECT : string := "Cargills Press Monitoring – Manual Trigger".

Definition DAILY_SUBJECT : string :=
  "Cargills Press Monitoring – Daily Report (Last 24 hours)".

(** [not EMAIL_USER]: the variable is unset or empty. *)
Definition unset (v : option string) : bool :=
  match v with
  | None => true
  | Some s => String.eqb s EmptyString
  end.

Definition render_row (a : PressArticle) : html_row :=
  mkHtmlRow (newspaper a) (language a) (title a)
    (if truthy (publish_date a) then publish_date a else JStr "Unknown")
    (url a).

Definition smtp_send (e : env) (msg : message) : M unit :=
  emit (Smtp msg) ;;
  match smtp e msg with
  | Some x => raise x
  | None => ret tt
  end.

Definition send_email (e : env) (articles : list PressArticle) (subject : string) : M unit :=
  emit (Notify articles subject) ;;
  if unset (EMAIL_USER e) || unset (EMAIL_PASS e) then emit (Print LogNoCredentials)
  else
    match articles with
    | [] => emit (Print LogNoArticles)
    | _ :: _ =>
        let user := match EMAIL_USER e with Some u => u | None => EmptyString end in
        let msg := mkMessage subject user user (map render_row articles) in
        try_except
          (smtp_send e msg ;; emit (Print LogEmailSent))
          (fun x => emit (Print (LogEmailError x)))
    end.

(** ** Core scan (lines 203-257) *)

(** Lines 226-230. *)
Definition publish_date_of (it : item) : res json :=
  let pm := match pagemap it with Some v => v | None => JObj [] end in
  res_bind (py_get pm "metatags" (JArr [JObj []])) (fun metatags =>
  res_bind (py_index0 metatags) (fun first =>
  py_get first "article:published_time" (JStr "Unknown"))).

(** Body of [for item in items] (lines 217-243). *)
Definition scan_item (e : env) (query : string) (it : item) : M unit :=
  let u := match link it with Some s => s | None => EmptyString end in
  if String.eqb u EmptyString then ret tt
  else
    existing <- query_first_by_url e u ;;
    match existing with
    | Some _ => ret tt
    | None =>
        pub <- lift (publish_date_of it) ;;
        name <- lift (get_newspaper_name (lib e) u) ;;
        lang <- lift (get_language (lib e) u) ;;
        let article := mkArticle name lang (item_title it) u (item_snippet it) query pub in
        session_add article ;;
        modify (fun w => set_new_articles (new_articles w ++ [article]) w)
    end.

(** Body of [for query in queries] (lines 213-243). *)
Definition scan_query (e : env) (fuel : nat) (domain query : string) : M unit :=
  emit (Print (LogQuery query)) ;;
  items <- google_search e fuel query domain ;;
  for_each items (scan_item e query).

Definition queries_for (domain : string) : list string :=
  if existsb (String.eqb domain) SINHALA_DOMAINS then SINHALA_QUERIES else ENGLISH_QUERIES.

(** Body of [for domain in NEWS_MAP.keys()] (lines 209-243). *)
Definition scan_domain (e : env) (fuel : nat) (domain : string) : M unit :=
  emit (Print (LogScanning domain)) ;;
  for_each (queries_for domain) (scan_query e fuel domain).

(** The [try] block (lines 208-249). *)
Definition scan_try (e : env) (fuel : nat) (send_email_immediate : bool) : M unit :=
  for_each (map fst NEWS_MAP) (scan_domain e fuel) ;;
  session_commit e ;;
  found <- get new_articles ;;
  match found with
  | _ :: _ => if send_email_immediate then send_email e found MANUAL_SUBJECT else ret tt
  | [] => ret tt
  end.

Definition run_scan_and_save (e : env) (fuel : nat) (send_email_immediate : bool)
  : M (list PressArticle) :=
  SessionLocal ;;
  modify (set_new_articles []) ;;
  finally
    (try_except (scan_try e fuel send_email_immediate)
       (fun x => session_rollback ;; emit (Print (LogScanError x))))
    session_close ;;
  get new_articles.

(** ** Daily job (lines 262-295) and manual trigger (lines 343-370) *)

(** [timedelta(days=1)] in microseconds. *)
Definition ONE_DAY : Z := 86400000000.

(** Step 2 of the job (lines 267-295): the window query and the e-mail.
    [datetime.now(TZ)] and [since] at lines 269-270 are computed and not
    used. *)
Definition daily_report (e : env) : M unit :=
  SessionLocal ;;
  finally
    (now_utc <- utcnow e ;;
     let since_utc := (now_utc - ONE_DAY)%Z in
     recent_articles <- query_recent e since_utc now_utc ;;
     match recent_articles with
     | _ :: _ => send_email e (map art recent_articles) DAILY_SUBJECT
     | [] => emit (Print LogNoRecent)
     end)
    session_close.

Definition daily_job (e : env) (fuel : nat) : M unit :=
  run_scan_and_save e fuel false ;;
  daily_report e.

(** The [/run-scan] route up to the values it hands to the template: the
    new articles (whose number is flashed) and the full listing. *)
Definition run_scan (e : env) (fuel : nat) : M (list PressArticle * list row) :=
  found <- run_scan_and_save e fuel true ;;
  SessionLocal ;;
  articles <- finally (query_all_by_id_desc e) session_close ;;
  ret (found, articles).

(** The events added between two states, and what to look for in them. *)
Definition events_since (w w' : world) : list event :=
  skipn (List.length (trace w)) (trace w').

Definition is_scan_error (ev : event) : bool :=
  match ev with
  | Print (LogScanError _) => true
  | _ => false
  end.

Definition scan_failed (evs : list event) : bool := existsb is_scan_error evs.

Fixpoint notifications (evs : list event) : list (list PressArticle * string) :=
  match evs with
  | [] => []
  | Notify articles subject :: rest => (articles, subject) :: notifications rest
  | _ :: rest => notifications rest
  end.

Fixpoint smtp_calls (evs : list event) : list message :=
  match evs with
  | [] => []
  | Smtp msg :: rest => msg :: smtp_calls rest
  | _ :: rest => smtp_calls rest
  end.

Fixpoint get_calls (evs : list event) : list (string * Z) :=
  match evs with
  | [] => []
  | Get q start :: rest => (q, start) :: get_calls rest
  | _ :: rest => get_calls rest
  end.

(** ** Notions used in the statements below *)

(** The search loop read as a function of the API alone: its result and
    the [start] offsets it requests, in order. *)
Fixpoint pages_from (e : env) (fuel : nat) (q : string) (start : Z)
    (results : list item) : option (res (list item) * list Z) :=
  match fuel with
  | O => None
  | S fuel' =>
      match api e q start with
      | ApiFail x => Some (Raise x, [start])
      | ApiPage None => Some (Ok results, [start])
      | ApiPage (Some items) =>
          if (Z.of_nat (List.length items) <? 10)%Z
          then Some (Ok (results ++ items), [start])
          else
            match pages_from e fuel' q (start + 10)%Z (results ++ items) with
            | None => None
            | Some (r, starts) => Some (r, start :: starts)
            end
      end
  end.

(** The rows a flush makes of the pending objects when the clock has been
    read [n] times. *)
Fixpoint stamp (e : env) (n : nat) (ps : list PressArticle) : list row :=
  match ps with
  | [] => []
  | a :: ps' => mkRow a (clock e n) :: stamp e (S n) ps'
  end.

(** The events of the sweep: requests and progress lines. *)
Definition is_sweep_event (ev : event) : bool :=
  match ev with
  | Get _ _ => true
  | Print (LogScanning _) => true
  | Print (LogQuery _) => true
  | _ => false
  end.

(** The items of a reply. *)
Definition items_of (page : option (list item)) : list item :=
  match page with
  | Some items => items
  | None => []
  end.

(** The offsets of [n] consecutive pages. *)
Definition starts_of (n : nat) : list Z :=
  map (fun k => (1 + 10 * Z.of_nat k)%Z) (seq 0 n).

(** [sub] occurs in [s]. *)
Definition is_substring (sub s : string) : Prop :=
  exists before after, s = (before ++ sub ++ after)%string.

(** What one call of [send_email] adds to the trace. *)
Definition email_events (e : env) (articles : list PressArticle) (subject : string)
  : list event :=
  Notify articles subject ::
  (if unset (EMAIL_USER e) || unset (EMAIL_PASS e) then [Print LogNoCredentials]
   else
     match articles with
     | [] => [Print LogNoArticles]
     | _ :: _ =>
         let user := match EMAIL_USER e with Some u => u | None => EmptyString end in
         let msg := mkMessage subject user user (map render_row articles) in
         [Smtp msg;
          Print (match smtp e msg with Some x => LogEmailError x | None => LogEmailSent end)]
     end).

(** The [q] parameters a scan can send: every configured domain with each
    query of its set, in the order of the sweep. *)
Definition scan_queries : list string :=
  flat_map (fun domain => map (fun query => search_q query domain) (queries_for domain))
    (map fst NEWS_MAP).

(** A record as the scan builds it: its URL is not empty, its newspaper and
    language are what the classifier gives for the URL, and its query is one
    of the four configured ones. *)
Definition record_ok (l : pylib) (a : PressArticle) : Prop :=
  url a <> EmptyString
  /\ get_newspaper_name l (url a) = Ok (newspaper a)
  /\ get_language l (url a) = Ok (language a)
  /\ In (query_used a) (ENGLISH_QUERIES ++ SINHALA_QUERIES).

(** Since the trace was [tr0], only progress lines and requests were added
    to it, and every request went to a configured pair. *)
Definition sweep_trace (tr0 : list event) (w : world) : Prop :=
  exists evs,
    trace w = tr0 ++ evs
    /\ forallb is_sweep_event evs = true
    /\ Forall (fun c => In (fst c) scan_queries) (get_calls evs).

(** The invariant of the sweep of one scan that started with the committed
    rows [db0], the clock reading [t0] and the trace [tr0].  Nothing is
    committed yet.  The new articles are the objects of the rows of the
    transaction, in order, followed by the pending objects; their URLs
    differ from each other and from the committed ones.  The rows of the
    transaction carry the readings [t0], [t0 + 1], ... in order, and nothing
    else has read the clock.  The new objects and the rows are well
    formed. *)
Record scan_inv (e : env) (db0 : list row) (t0 : nat) (tr0 : list event) (w : world)
  : Prop := {
  inv_db : db w = db0;
  inv_new : exists inserted,
              new_articles w = inserted ++ pending w
              /\ map url inserted = map row_url (txn w);
  inv_nodup : NoDup (map url (new_articles w));
  inv_fresh : forall a, In a (new_articles w) -> ~ In (url a) (map row_url db0);
  inv_txn : txn w = stamp e t0 (map art (txn w));
  inv_ticks : ticks w = t0 + List.length (txn w);
  inv_records : Forall (record_ok (lib e)) (new_articles w);
  inv_rows : Forall (record_ok (lib e)) (map art (txn w));
  inv_trace : sweep_trace tr0 w
}.

(** What is left of the invariant when a statement of the sweep raises:
    nothing is committed, and the trace is that of a sweep. *)
Definition scan_aborted (db0 : list row) (tr0 : list event) (w : world) : Prop :=
  db w = db0 /\ sweep_trace tr0 w.

(** The link of [it], when it has one, is the URL of a committed row or of
    a new article. *)
Definition visited (db0 : list row) (it : item) (w : world) : Prop :=
  forall u, link it = Some u -> u <> EmptyString ->
            In u (map row_url db0) \/ In u (map url (new_articles w)).

Definition query_swept (e : env) (fuel : nat) (db0 : list row) (domain query : string)
    (w : world) : Prop :=
  exists items starts,
    pages_from e fuel (search_q query domain) 1 [] = Some (Ok items, starts)
    /\ forall it, In it items -> visited db0 it w.

Definition domain_swept (e : env) (fuel : nat) (db0 : list row) (domain : string)
    (w : world) : Prop :=
  forall query, In query (queries_for domain) -> query_swept e fuel db0 domain query w.

(** Every search of the sweep ends normally within [fuel] requests, and
    every link it returns is among [urls]. *)
Definition all_known (e : env) (fuel : nat) (urls : list string) : Prop :=
  forall domain query,
    In domain (map fst NEWS_MAP) -> In query (queries_for domain) ->
    exists items starts,
      pages_from e fuel (search_q query domain) 1 [] = Some (Ok items, starts)
      /\ forall it u, In it items -> link it = Some u -> u <> EmptyString -> In u urls.

(** What the [try] block of a scan adds to the trace after the commit. *)
Definition mail_events (e : env) (b : bool) (found : list PressArticle) : list event :=
  match found with
  | _ :: _ => if b then email_events e found MANUAL_SUBJECT else []
  | [] => []
  end.

(** The state in which the [try] block of a scan starts. *)
Definition scan_start (w : world) : world :=
  set_new_articles [] (set_pending [] (set_txn [] w)).

(** The state after [session.close()]. *)
Definition closed (w : world) : world := set_pending [] (set_txn [] w).

(** Two scans back to back; the pair of their results. *)
Definition scan_twice (e : env) (fuel : nat) (send_email_immediate : bool)
  : M (list PressArticle * list PressArticle) :=
  first <- run_scan_and_save e fuel send_email_immediate ;;
  second <- run_scan_and_save e fuel send_email_immediate ;;
  ret (first, second).

(** ** Example inputs *)

Definition empty_world : world := mkWorld [] [] [] [] 0 [].

Definition plain_item (u : string) : item := mkItem (Some u) (Some "title") (Some "text") None.

(** A result whose [pagemap] has an empty [metatags] array. *)
Definition empty_metatags_item (u : string) : item :=
  mkItem (Some u) (Some "title") (Some "text") (Some (JObj [("metatags", JArr [])])).

(** A result whose first metatag has the value [v] under
    the key "article:published_time". *)
Definition dated_item (u : string) (v : json) : item :=
  mkItem (Some u) (Some "title") (Some "text")
    (Some (JObj [("metatags", JArr [JObj [("article:published_time", v)]])])).

(** Stand-ins for the library in the examples: no text is an IP address
    and normalisation changes nothing.  The URLs of the examples are ASCII
    and have no bracket, so that [urlparse] consults none of the three. *)
Definition plain_lib : pylib := mkLib BracketedNetloc (fun _ => None) (fun s => s).

(** A database in the manner of SQLite under [sqlite3]: a number put into
    a [Text] column is stored as its decimal text and a truth value as 1 or
    0; a list or a dict cannot be bound. *)
Definition bind_scalars (v : json) : option string :=
  match v with
  | JNum n => Some (NilZero.string_of_int (Z.to_int n))
  | JBool b => Some (if b then "1" else "0")
  | _ => None
  end.

(** An environment with the given API, a working SMTP server, credentials
    set, and a clock that advances by one at each reading. *)
Definition env_of_api (f : string -> Z -> response) : env :=
  mkEnv f (fun _ => None) (fun n => Z.of_nat n) plain_lib bind_scalars
    (Some "bot@example.com") (Some "secret").

Definition first_q : string := search_q (quoted "cargills") "dailymirror.lk".
Definition second_q : string := search_q (quoted "cargils") "dailymirror.lk".

(** The first search finds one article; the second request fails. *)
Definition api_outage (q : string) (start : Z) : response :=
  if String.eqb q first_q then ApiPage (Some [plain_item "https://www.dailymirror.lk/a"])
  else if String.eqb q second_q then ApiFail RequestError
  else ApiPage None.

(** The first search finds one good result and one with empty metatags. *)
Definition api_empty_metatags (q : string) (start : Z) : response :=
  if String.eqb q first_q
  then ApiPage (Some [plain_item "https://www.dailymirror.lk/a";
                      empty_metatags_item "https://www.dailymirror.lk/b"])
  else ApiPage None.

(** Two searches return overlapping results, one of them twice in a page
    and one without a link. *)
Definition api_overlap (q : string) (start : Z) : response :=
  if String.eqb q first_q
  then ApiPage (Some [plain_item "https://www.dailymirror.lk/a";
                      plain_item "https://www.dailymirror.lk/b";
                      mkItem None (Some "title") None None;
                      plain_item "https://www.dailymirror.lk/a"])
  else if String.eqb q second_q
  then ApiPage (Some [plain_item "https://www.dailymirror.lk/b";
                      plain_item "https://www.dailymirror.lk/c"])
  else ApiPage None.

(** The first search finds a good result and then one whose publication
    time is a list; no other search finds anything, so that the second
    object is still pending when the sweep ends and its INSERT is part of
    [session.commit()]. *)
Definition api_list_date (q : string) (start : Z) : response :=
  if String.eqb q first_q
  then ApiPage (Some [plain_item "https://www.dailymirror.lk/a";
                      dated_item "https://www.dailymirror.lk/b"
                        (JArr [JStr "2024-12-01T10:00:00+05:30"])])
  else ApiPage None.

(** The first search finds one result whose publication time is a
    number. *)
Definition api_number_date (q : string) (start : Z) : response :=
  if String.eqb q first_q
  then ApiPage (Some [dated_item "https://www.dailymirror.lk/a" (JNum 20241201)])
  else ApiPage None.

(** Pages of 10, 10 and 7 results for every query. *)
Definition api_three_pages (q : string) (start : Z) : response :=
  if (start =? 1)%Z then ApiPage (Some (repeat (plain_item "https://www.ft.lk/1") 10))
  else if (start =? 11)%Z then ApiPage (Some (repeat (plain_item "https://www.ft.lk/2") 10))
  else if (start =? 21)%Z then ApiPage (Some (repeat (plain_item "https://www.ft.lk/3") 7))
  else ApiPage None.

Definition api_nothing (q : string) (start : Z) : response := ApiPage None.

Definition HOUR : Z := 3600000000.

Definition stored_article (u : string) : PressArticle :=
  mkArticle "Daily FT" "English" (Some "title") u (Some "text") (quoted "cargills")
    (JStr "Unknown").

(** Three stored rows, made 30, 23 and 1 hours before the time [100 * HOUR]. *)
Definition world_three_rows : world :=
  mkWorld [ mkRow (stored_article "https://www.ft.lk/old") (70 * HOUR);
            mkRow (stored_article "https://www.ft.lk/yesterday") (77 * HOUR);
            mkRow (stored_article "https://www.ft.lk/fresh") (99 * HOUR) ]
          [] [] [] 0 [].

(** Nothing new upstream, and the clock stands at [100 * HOUR]. *)
Definition env_quiet_day : env :=
  mkEnv api_nothing (fun _ => None) (fun _ => (100 * HOUR)%Z) plain_lib bind_scalars
    (Some "bot@example.com") (Some "secret").

(** Every page is full. *)
Definition api_always_full (q : string) (start : Z) : response :=
  ApiPage (Some (repeat (plain_item "https://www.ft.lk/again") 10)).

(** Two full pages, then the request fails. *)
Definition api_fail_third (q : string) (start : Z) : response :=
  if (start =? 1)%Z then ApiPage (Some (repeat (plain_item "https://www.ft.lk/1") 10))
  else if (start =? 11)%Z then ApiPage (Some (repeat (plain_item "https://www.ft.lk/2") 10))
  else ApiFail RequestError.

(** A clock that advances by one second at each reading. *)
Definition env_seconds (f : string -> Z -> response) : env :=
  mkEnv f (fun _ => None) (fun n => (1000000 * Z.of_nat n)%Z) plain_lib bind_scalars
    (Some "bot@example.com") (Some "secret").

(** The same as [env_of_api], with no mail credentials and an SMTP server
    that fails. *)
Definition env_no_mail (f : string -> Z -> response) : env :=
  mkEnv f (fun _ => Some SMTPError) (fun n => Z.of_nat n) plain_lib bind_scalars None None.

(* ================================================================== *)
(** * Properties *)

Example netloc_plain (l : pylib) :
  urlparse_netloc l "https://www.ft.lk/news/x?a=1#top" = Ok "www.ft.lk".
Proof. reflexivity. Qed.

Example netloc_port_user (l : pylib) :
  urlparse_netloc l "HTTP://user@Example.com:8080" = Ok "user@Example.com:8080".
Proof. reflexivity. Qed.

Example netloc_relative (l : pylib) : urlparse_netloc l "www.ft.lk/news" = Ok EmptyString.
Proof. reflexivity. Qed.

(** A bracketed host is accepted when [ipaddress] reads it as an IPv6
    address, or when it has the form of an IPvFuture address. *)
Example netloc_ipv6 (l : pylib) :
  ip_address l "::1" = Some IPv6Address ->
  urlparse_netloc l "http://[::1]:8080/x" = Ok "[::1]:8080".
Proof.
  intros H. cbv -[ip_address bracket_rule].
  destruct (bracket_rule l); [reflexivity | now rewrite H | now rewrite H].
Qed.

Example netloc_ipvfuture (l : pylib) :
  urlparse_netloc l "http://[v1f.x]/" = Ok "[v1f.x]".
Proof. cbv -[bracket_rule]. now destruct (bracket_rule l). Qed.

(** Where a release checks the bracketed host, a host that is no IP
    address and an IPv4 address in brackets are rejected. *)
Example netloc_bracketed_name (l : pylib) :
  bracket_rule l <> BracketsUnchecked ->
  ip_address l "ada.lk" = None ->
  urlparse_netloc l "http://[ada.lk]/" = Raise ValueError.
Proof.
  intros Hrule H. cbv -[ip_address bracket_rule].
  destruct (bracket_rule l); [contradiction | now rewrite H | now rewrite H].
Qed.

Example netloc_bracketed_ipv4 (l : pylib) :
  bracket_rule l <> BracketsUnchecked ->
  ip_address l "127.0.0.1" = Some IPv4Address ->
  urlparse_netloc l "http://[127.0.0.1]/" = Raise ValueError.
Proof.
  intros Hrule H. cbv -[ip_address bracket_rule].
  destruct (bracket_rule l); [contradiction | now rewrite H | now rewrite H].
Qed.

(** [_check_bracketed_netloc] also rejects text before the brackets, and
    text after them that is no port. *)
Example netloc_before_bracket (l : pylib) :
  bracket_rule l = BracketedNetloc ->
  urlparse_netloc l "http://ada.lk[::1]/" = Raise ValueError.
Proof. intros Hrule. cbv -[bracket_rule]. now rewrite Hrule. Qed.

Example netloc_after_bracket (l : pylib) :
  bracket_rule l = BracketedNetloc ->
  urlparse_netloc l "http://[::1]ada.lk/" = Raise ValueError.
Proof. intros Hrule. cbv -[bracket_rule]. now rewrite Hrule. Qed.

(** A netloc that is not ASCII is rejected when its NFKC form holds a
    delimiter that it did not hold itself: U+2100 becomes "a/c". *)
Example netloc_nfkc (l : pylib) :
  normalize_NFKC l "www.ada.lk℀" = "www.ada.lka/c" ->
  urlparse_netloc l "http://www.ada.lk℀/" = Raise ValueError.
Proof. intros H. cbv -[normalize_NFKC]. now rewrite H. Qed.

Example replace_twice : replace "www." EmptyString "www.a.www.b" = "a.b".
Proof. reflexivity. Qed.

Example replace_overlap : replace "aa" "b" "aaaaa" = "bba".
Proof. reflexivity. Qed.

Example name_ft (l : pylib) : get_newspaper_name l "https://www.ft.lk/x" = Ok "Daily FT".
Proof. reflexivity. Qed.

Example lang_ada (l : pylib) : get_language l "https://www.ada.lk/x" = Ok "Sinhala".
Proof. reflexivity. Qed.

(** ** Strings *)

Lemma prefix_iff (p s : string) :
  prefix p s = true <-> exists t, s = (p ++ t)%string.
Proof.
  revert s; induction p as [|a p IH]; intros s.
  - split; [intros _; now exists s | intros _; now destruct s].
  - destruct s as [|b s]; simpl.
    + split; [discriminate | intros [t Ht]; discriminate].
    + destruct (ascii_dec a b) as [->|Hab].
      * rewrite IH. split; intros [t Ht]; exists t.
        -- now rewrite Ht.
        -- now inversion Ht.
      * split; [discriminate | intros [t Ht]; inversion Ht; congruence].
Qed.

Lemma contains_cons (sub : string) (c : ascii) (s : string) :
  contains sub (String c s) = prefix sub (String c s) || contains sub s.
Proof. reflexivity. Qed.

Lemma contains_empty (sub : string) :
  contains sub EmptyString = prefix sub EmptyString.
Proof. unfold contains. apply orb_false_r. Qed.

Lemma contains_iff (sub s : string) :
  contains sub s = true <-> is_substring sub s.
Proof.
  unfold is_substring. split.
  - induction s as [|c s IH].
    + rewrite contains_empty. intros H.
      apply prefix_iff in H as [t Ht]. now exists EmptyString, t.
    + rewrite contains_cons, orb_true_iff. intros [H|H].
      * apply prefix_iff in H as [t Ht]. now exists EmptyString, t.
      * destruct (IH H) as (a & b & Hab). exists (String c a), b.
        simpl. now rewrite Hab.
  - intros (a & b & Hab). revert s Hab.
    induction a as [|c a IH]; intros s Hab; simpl in Hab.
    + assert (Hp : prefix sub s = true) by (apply prefix_iff; now exists b).
      destruct s; [now rewrite contains_empty | rewrite contains_cons, Hp; reflexivity].
    + subst s. rewrite contains_cons, (IH _ eq_refl). apply orb_true_r.
Qed.

Lemma contains_false_iff (sub s : string) :
  contains sub s = false <-> ~ is_substring sub s.
Proof.
  rewrite <- contains_iff. destruct (contains sub s); split; congruence.
Qed.

(** ** Classifier *)

Lemma first_name_unknown (domain : string) (pairs : list (string * string)) :
  (forall k n, In (k, n) pairs -> ~ is_substring k domain) ->
  first_name domain pairs = "Unknown".
Proof.
  induction pairs as [|[k n] rest IH]; intros H; simpl; [reflexivity|].
  assert (Hk : contains k domain = false)
    by (apply contains_false_iff, (H k n); now left).
  rewrite Hk. apply IH. intros k' n' Hin. apply (H k' n'). now right.
Qed.

Lemma first_name_first (domain : string) (before after : list (string * string))
    (key name : string) :
  (forall k n, In (k, n) before -> ~ is_substring k domain) ->
  is_substring key domain ->
  first_name domain (before ++ (key, name) :: after) = name.
Proof.
  induction before as [|[k n] rest IH]; intros Hb Hk; simpl.
  - apply contains_iff in Hk. now rewrite Hk.
  - assert (Hk' : contains k domain = false)
      by (apply contains_false_iff, (Hb k n); now left).
    rewrite Hk'. apply IH; [|exact Hk].
    intros k' n' Hin. apply (Hb k' n'). now right.
Qed.

Lemma language_loop_cases (domain : string) (ds : list string) :
  (language_loop domain ds = "Sinhala" /\ exists d, In d ds /\ is_substring d domain)
  \/ (language_loop domain ds = "English" /\ forall d, In d ds -> ~ is_substring d domain).
Proof.
  induction ds as [|d rest IH]; simpl.
  - right. split; [reflexivity | intros d []].
  - destruct (contains d domain) eqn:Hd.
    + left. split; [reflexivity|]. exists d. split; [now left | now apply contains_iff].
    + destruct IH as [[Hs (d' & Hin & Hsub)] | [He Hnone]].
      * left. split; [exact Hs|]. exists d'. split; [now right | exact Hsub].
      * right. split; [exact He|]. intros d' [<- | Hin].
        -- now apply contains_false_iff.
        -- now apply Hnone.
Qed.

(** [urlparse] raises nothing but [ValueError]. *)
Lemma urlparse_netloc_raises (l : pylib) (url : string) (x : exn) :
  urlparse_netloc l url = Raise x -> x = ValueError.
Proof.
  unfold urlparse_netloc.
  destruct (split_scheme _) as [|c1 s1]; [discriminate|].
  destruct c1 as [[] [] [] [] [] [] [] []]; try discriminate.
  destruct s1 as [|c2 rest]; [discriminate|].
  destruct c2 as [[] [] [] [] [] [] [] []]; try discriminate.
  destruct (_ || _); [congruence|].
  assert (Hhost : forall h y, check_bracketed_host l h = Raise y -> y = ValueError).
  { intros h y. unfold check_bracketed_host.
    destruct (prefix "v" h).
    - destruct (is_ipvfuture h); congruence.
    - destruct (ip_address l h) as [[]|]; congruence. }
  assert (Hbr : forall n y, check_bracketed_netloc l n = Raise y -> y = ValueError).
  { intros n y. unfold check_bracketed_netloc.
    destruct (str_partition "[" _) as [[before have] bracketed].
    destruct have.
    - destruct (negb _); [congruence|].
      destruct (str_partition "]" bracketed) as [[hostname f] port].
      destruct (_ && _); [congruence | apply Hhost].
    - destruct (str_partition ":" _) as [[hostname f] port]. apply Hhost. }
  assert (Hnf : forall n y, checknetloc l n = Raise y -> y = ValueError).
  { intros n y. unfold checknetloc.
    destruct (_ || _); [discriminate|]. cbv zeta.
    destruct (_ =? _); [discriminate|].
    destruct (existsb _ _); congruence. }
  assert (Hrule : forall n y, check_brackets l n = Raise y -> y = ValueError).
  { intros n y. unfold check_brackets.
    destruct (bracket_rule l); [discriminate | | apply Hbr].
    destruct (str_partition "[" n) as [[before have] after_open].
    destruct (str_partition "]" after_open) as [[host f] port]. apply Hhost. }
  destruct (_ && _).
  - destruct (check_brackets l _) as [[]|y] eqn:Hc; cbn [res_bind].
    + destruct (checknetloc l _) as [[]|z] eqn:Hn; cbn [res_bind]; [discriminate|].
      intros H. injection H as <-. exact (Hnf _ _ Hn).
    + intros H. injection H as <-. exact (Hrule _ _ Hc).
  - cbn [res_bind].
    destruct (checknetloc l _) as [[]|z] eqn:Hn; cbn [res_bind]; [discriminate|].
    intros H. injection H as <-. exact (Hnf _ _ Hn).
Qed.

(** C7, as the code has it.  For every URL: when [urlparse] rejects the URL
    its [ValueError] leaves [get_newspaper_name]; otherwise every occurrence
    of "www." is deleted from the netloc, and the result is the name of the
    first pair of [NEWS_MAP], in declaration order, whose key occurs in that
    domain, or "Unknown" when no key occurs in it. *)
Theorem get_newspaper_name_first_match (l : pylib) (url : string) :
  match urlparse_netloc l url with
  | Raise x => x = ValueError /\ get_newspaper_name l url = Raise ValueError
  | Ok netloc =>
      let domain := replace "www." EmptyString netloc in
      (forall before key name after,
          NEWS_MAP = before ++ (key, name) :: after ->
          (forall k n, In (k, n) before -> ~ is_substring k domain) ->
          is_substring key domain ->
          get_newspaper_name l url = Ok name)
      /\ ((forall k n, In (k, n) NEWS_MAP -> ~ is_substring k domain) ->
          get_newspaper_name l url = Ok "Unknown")
  end.
Proof.
  unfold get_newspaper_name, domain_of.
  destruct (urlparse_netloc l url) as [netloc|x] eqn:Hparse; cbn [res_bind].
  2:{ apply urlparse_netloc_raises in Hparse. subst x. now split. }
  split.
  - intros before key name after Hmap Hbefore Hkey.
    rewrite Hmap. f_equal. now apply first_name_first.
  - intros Hnone. f_equal. now apply first_name_unknown.
Qed.

(** C7, an instance: "ft.lk" is the second key and the first that occurs
    in the domain of this URL. *)
Lemma get_newspaper_name_first_match_witness :
  get_newspaper_name plain_lib "https://www.ft.lk/front-page/x" = Ok "Daily FT".
Proof.
  generalize (get_newspaper_name_first_match plain_lib "https://www.ft.lk/front-page/x").
  simpl. intros [Hfirst _].
  apply (Hfirst [("dailymirror.lk", "Daily Mirror")] "ft.lk" "Daily FT"
           (skipn 2 NEWS_MAP) eq_refl).
  - intros k n [Heq | []]. inversion Heq; subst.
    apply contains_false_iff. reflexivity.
  - apply contains_iff. reflexivity.
Defined.

(** C7 as the specification words it fails: the host "adwww.a.lk" has no
    leading "www." and holds no configured key, yet the code deletes the
    inner "www." and finds "ada.lk". *)
Lemma leading_www_only_differs :
  (forall l, get_newspaper_name l "http://adwww.a.lk/news" = Ok "Ada")
  /\ (forall l, newspaper_for_spec l "http://adwww.a.lk/news" = Ok "Unknown")
  /\ (forall l, get_newspaper_name l "http://adwww.a.lk/news"
                <> newspaper_for_spec l "http://adwww.a.lk/news").
Proof. split; [reflexivity | split; [reflexivity | discriminate]]. Qed.

(** C8, as the code has it.  For every URL: when [urlparse] rejects the URL
    its [ValueError] leaves [get_language] and no value is returned;
    otherwise the result is one of "Sinhala" and "English", and it is
    "Sinhala" exactly when an entry of [SINHALA_DOMAINS] occurs in the netloc
    with every "www." deleted. *)
Theorem get_language_partition (l : pylib) (url : string) :
  match urlparse_netloc l url with
  | Raise x => x = ValueError /\ get_language l url = Raise ValueError
  | Ok netloc =>
      let domain := replace "www." EmptyString netloc in
      (get_language l url = Ok "Sinhala" \/ get_language l url = Ok "English")
      /\ (get_language l url = Ok "Sinhala" <->
          exists d, In d SINHALA_DOMAINS /\ is_substring d domain)
  end.
Proof.
  unfold get_language, domain_of.
  destruct (urlparse_netloc l url) as [netloc|x] eqn:Hparse; cbn [res_bind].
  2:{ apply urlparse_netloc_raises in Hparse. subst x. now split. }
  destruct (language_loop_cases (replace "www." EmptyString netloc) SINHALA_DOMAINS)
    as [[Hs Hex] | [He Hnone]].
  - rewrite Hs. split; [now left|]. split; [intros _; exact Hex | reflexivity].
  - rewrite He. split; [now right|]. split; [discriminate|].
    intros (d & Hin & Hsub). exfalso. exact (Hnone d Hin Hsub).
Qed.

(** C8 as stated fails: on a URL whose netloc has an opening bracket and
    no closing one, [urlparse] raises and [get_language] returns nothing,
    whatever the library functions do. *)
Lemma get_language_raises :
  (forall l, get_language l "http://[" = Raise ValueError)
  /\ ~ (forall l url, exists lang, get_language l url = Ok lang).
Proof.
  split; [reflexivity|].
  intros H. destruct (H plain_lib "http://[") as [lang Hl]. discriminate.
Qed.

(** ** Statements: running and invariants *)

Lemma add_events_app (a b : list event) (w : world) :
  add_events b (add_events a w) = add_events (a ++ b) w.
Proof. unfold add_events; simpl. now rewrite app_assoc. Qed.

Lemma add_events_nil (w : world) : add_events [] w = w.
Proof. destruct w; unfold add_events; simpl. now rewrite app_nil_r. Qed.

Lemma events_since_add (evs : list event) (w : world) :
  events_since w (add_events evs w) = evs.
Proof.
  unfold events_since, add_events; simpl.
  rewrite skipn_app, skipn_all, Nat.sub_diag. reflexivity.
Qed.

Lemma bind_run {A B} (m : M A) (f : A -> M B) (w : world) :
  bind m f w =
  match m w with
  | None => None
  | Some (Ok a, w') => f a w'
  | Some (Raise x, w') => Some (Raise x, w')
  end.
Proof. reflexivity. Qed.

Lemma bind_modify {B} (f : world -> world) (k : unit -> M B) (w : world) :
  bind (modify f) k w = k tt (f w).
Proof. reflexivity. Qed.

Lemma bind_get {A B} (f : world -> A) (k : A -> M B) (w : world) :
  bind (get f) k w = k (f w) w.
Proof. reflexivity. Qed.

(** A loop whose body always ends normally ends normally. *)
Lemma for_each_total {A} (J : world -> Prop) (l : list A) (body : A -> M unit) :
  (forall x w, In x l -> J w -> exists w', body x w = Some (Ok tt, w') /\ J w') ->
  forall w, J w -> exists w', for_each l body w = Some (Ok tt, w') /\ J w'.
Proof.
  induction l as [|x l IH]; intros Hb w HJ; simpl.
  - exists w. split; [reflexivity | exact HJ].
  - destruct (Hb x w (or_introl eq_refl) HJ) as (w1 & Hx & HJ1).
    rewrite bind_run, Hx. apply IH; [|exact HJ1].
    intros y w2 Hy. apply Hb. now right.
Qed.

(** What a loop did: with an invariant [I] that holds as long as the body
    ends normally, a weaker [J] that is left when the body raises, a
    preorder [R] that every step respects and facts [P x] that [R]
    preserves, a loop that ends normally has every element's fact, and a
    loop that raises leaves [J]. *)
Lemma for_each_inv {A} (I J : world -> Prop) (R : world -> world -> Prop)
    (P : A -> world -> Prop) (l : list A) (body : A -> M unit) :
  (forall w, R w w) ->
  (forall w1 w2 w3, R w1 w2 -> R w2 w3 -> R w1 w3) ->
  (forall x w w', P x w -> R w w' -> P x w') ->
  (forall x w r w', In x l -> I w -> body x w = Some (r, w') ->
                    match r with
                    | Ok _ => I w' /\ R w w' /\ P x w'
                    | Raise _ => J w'
                    end) ->
  forall w r w', I w -> for_each l body w = Some (r, w') ->
                 match r with
                 | Ok _ => I w' /\ R w w' /\ (forall x, In x l -> P x w')
                 | Raise _ => J w'
                 end.
Proof.
  intros Hrefl Htrans Hmono.
  induction l as [|x l IH]; intros Hb w r w' HI H; simpl in H.
  - inversion H; subst. repeat split; [exact HI | apply Hrefl | intros y []].
  - rewrite bind_run in H.
    destruct (body x w) as [[[u|ex] w1]|] eqn:Hx; [| |discriminate].
    + destruct (Hb x w (Ok u) w1 (or_introl eq_refl) HI Hx) as (HI1 & HR1 & HP1).
      pose proof (IH (fun y w2 r2 w3 Hy => Hb y w2 r2 w3 (or_intror Hy)) w1 r w' HI1 H)
        as Hrest.
      destruct r as [t|ex]; [|exact Hrest].
      destruct Hrest as (HI2 & HR2 & HP2).
      split; [exact HI2|]. split; [exact (Htrans _ _ _ HR1 HR2)|].
      intros y [<- | Hy].
      * exact (Hmono _ w1 _ HP1 HR2).
      * now apply HP2.
    + inversion H; subst.
      exact (Hb x w (Raise ex) w' (or_introl eq_refl) HI Hx).
Qed.

(** ** Search aggregator *)

Lemma google_search_loop_eq (e : env) (fuel : nat) (q : string) :
  forall (start : Z) (results : list item) (w : world),
    google_search_loop e fuel q start results w =
    match pages_from e fuel q start results with
    | None => None
    | Some (r, starts) => Some (r, add_events (map (Get q) starts) w)
    end.
Proof.
  induction fuel as [|fuel IH]; intros start results w; [reflexivity|].
  cbn [google_search_loop pages_from].
  rewrite bind_run. unfold requests_get_json. rewrite bind_run.
  unfold emit, modify, log.
  destruct (api e q start) as [x | [items|]]; try reflexivity.
  unfold ret at 1.
  destruct (Z.of_nat (Datatypes.length items) <? 10)%Z; [reflexivity|].
  rewrite IH.
  destruct (pages_from e fuel q (start + 10) (results ++ items)) as [[r starts]|];
    [|reflexivity].
  now rewrite add_events_app.
Qed.

Lemma google_search_eq (e : env) (fuel : nat) (query site : string) (w : world) :
  google_search e fuel query site w =
  match pages_from e fuel (search_q query site) 1 [] with
  | None => None
  | Some (r, starts) => Some (r, add_events (map (Get (search_q query site)) starts) w)
  end.
Proof. apply google_search_loop_eq. Qed.

Lemma pages_from_run (e : env) (q : string) (last : option (list item)) :
  forall (full : list (list item)) (fuel : nat) (start : Z) (results : list item),
    (forall k p, nth_error full k = Some p ->
                 api e q (start + 10 * Z.of_nat k)%Z = ApiPage (Some p)
                 /\ 10 <= List.length p) ->
    api e q (start + 10 * Z.of_nat (List.length full))%Z = ApiPage last ->
    List.length (items_of last) < 10 ->
    List.length full < fuel ->
    pages_from e fuel q start results =
    Some (Ok (results ++ concat full ++ items_of last),
          map (fun k => (start + 10 * Z.of_nat k)%Z) (seq 0 (S (List.length full)))).
Proof.
  induction full as [|p full IH]; intros fuel start results Hfull Hlast Hshort Hfuel.
  - destruct fuel as [|fuel]; [lia|]. simpl in *.
    rewrite Z.add_0_r in *. rewrite Hlast.
    destruct last as [items|]; simpl in *.
    + destruct (Z.ltb_spec (Z.of_nat (Datatypes.length items)) 10); [reflexivity | lia].
    + now rewrite app_nil_r.
  - destruct fuel as [|fuel]; [simpl in Hfuel; lia|].
    destruct (Hfull 0 p eq_refl) as [Hp Hlen].
    simpl in Hp. rewrite Z.add_0_r in Hp.
    cbn [pages_from]. rewrite Hp.
    destruct (Z.ltb_spec (Z.of_nat (Datatypes.length p)) 10); [lia|].
    rewrite (IH fuel (start + 10)%Z (results ++ p)).
    + f_equal. f_equal.
      * f_equal. simpl. now rewrite <- !app_assoc.
      * replace (Datatypes.length (p :: full)) with (S (Datatypes.length full))
          by reflexivity.
        generalize (S (Datatypes.length full)) as m. intros m.
        change (seq 0 (S m)) with (0 :: seq 1 m). rewrite <- seq_shift.
        rewrite map_cons, map_map. f_equal; [lia|].
        apply map_ext. intros k. lia.
    + intros k p' Hk. destruct (Hfull (S k) p' Hk) as [Ha Hb].
      split; [|exact Hb]. rewrite <- Ha. f_equal. lia.
    + rewrite <- Hlast. f_equal. simpl Datatypes.length. lia.
    + exact Hshort.
    + simpl in Hfuel. lia.
Qed.

(** C4.  Whatever the API: when the requests at offsets 1, 11, ... are
    answered by the full pages [full] (ten items or more each) and the next
    one by [last], a reply with no items or with fewer than ten, the search
    returns the concatenation of all the items, and what it did is exactly
    one request per page at offsets 1, 11, 21, ... and nothing else.  For
    pages of 10, 10 and 7 items that is 27 items from the three requests at
    1, 11, 21; for a first reply without items it is the empty list after
    one request. *)
Theorem google_search_pagination :
  (forall (e : env) (fuel : nat) (query site : string)
          (full : list (list item)) (last : option (list item)) (w : world),
      (forall k p, nth_error full k = Some p ->
                   api e (search_q query site) (1 + 10 * Z.of_nat k)%Z = ApiPage (Some p)
                   /\ 10 <= List.length p) ->
      api e (search_q query site) (1 + 10 * Z.of_nat (List.length full))%Z = ApiPage last ->
      List.length (items_of last) < 10 ->
      List.length full < fuel ->
      google_search e fuel query site w =
      Some (Ok (concat full ++ items_of last),
            add_events (map (Get (search_q query site)) (starts_of (S (List.length full)))) w))
  /\ (forall (e : env) (fuel : nat) (query site : string) (p1 p2 p3 : list item) (w : world),
      List.length p1 = 10 -> List.length p2 = 10 -> List.length p3 = 7 ->
      api e (search_q query site) 1%Z = ApiPage (Some p1) ->
      api e (search_q query site) 11%Z = ApiPage (Some p2) ->
      api e (search_q query site) 21%Z = ApiPage (Some p3) ->
      3 <= fuel ->
      exists (items : list item) (w' : world),
        google_search e fuel query site w = Some (Ok items, w')
        /\ items = p1 ++ p2 ++ p3
        /\ List.length items = 27
        /\ get_calls (events_since w w') =
           [(search_q query site, 1%Z); (search_q query site, 11%Z); (search_q query site, 21%Z)])
  /\ (forall (e : env) (fuel : nat) (query site : string) (w : world),
      api e (search_q query site) 1%Z = ApiPage None ->
      1 <= fuel ->
      exists w' : world,
        google_search e fuel query site w = Some (Ok [], w')
        /\ get_calls (events_since w w') = [(search_q query site, 1%Z)]).
Proof.
  assert (General : forall e fuel query site full last w,
      (forall k p, nth_error full k = Some p ->
                   api e (search_q query site) (1 + 10 * Z.of_nat k)%Z = ApiPage (Some p)
                   /\ 10 <= List.length p) ->
      api e (search_q query site) (1 + 10 * Z.of_nat (List.length full))%Z = ApiPage last ->
      List.length (items_of last) < 10 ->
      List.length full < fuel ->
      google_search e fuel query site w =
      Some (Ok (concat full ++ items_of last),
            add_events (map (Get (search_q query site)) (starts_of (S (List.length full)))) w)).
  { intros e fuel query site full last w Hfull Hlast Hshort Hfuel.
    rewrite google_search_eq.
    rewrite (pages_from_run e _ last full fuel 1%Z [] Hfull Hlast Hshort Hfuel).
    reflexivity. }
  split; [exact General|]. split.
  - intros e fuel query site p1 p2 p3 w H1 H2 H3 A1 A2 A3 Hfuel.
    exists (p1 ++ p2 ++ p3), (add_events (map (Get (search_q query site)) (starts_of 3)) w).
    split.
    + rewrite (General e fuel query site [p1; p2] (Some p3) w).
      * simpl. now rewrite app_nil_r, <- app_assoc.
      * intros [|[|k]] p Hk; simpl in Hk; inversion Hk; subst.
        -- split; [exact A1 | lia].
        -- split; [exact A2 | lia].
        -- destruct k; discriminate.
      * exact A3.
      * simpl. lia.
      * simpl. lia.
    + split; [reflexivity|]. split.
      * rewrite !length_app. lia.
      * rewrite events_since_add. reflexivity.
  - intros e fuel query site w A1 Hfuel.
    exists (add_events (map (Get (search_q query site)) (starts_of 1)) w).
    split.
    + rewrite (General e fuel query site [] None w).
      * reflexivity.
      * intros [|k] p Hk; discriminate.
      * exact A1.
      * simpl. lia.
      * simpl. lia.
    + rewrite events_since_add. reflexivity.
Qed.

(** ** Digest notifier *)

Lemma send_email_eq (e : env) (articles : list PressArticle) (subject : string)
    (w : world) :
  send_email e articles subject w =
  Some (Ok tt, add_events (email_events e articles subject) w).
Proof.
  unfold send_email, email_events. rewrite bind_run.
  unfold emit at 1, modify at 1, log.
  destruct (unset (EMAIL_USER e) || unset (EMAIL_PASS e)).
  - unfold emit, modify, log. now rewrite add_events_app.
  - destruct articles as [|a rest].
    + unfold emit, modify, log. now rewrite add_events_app.
    + unfold try_except, smtp_send. rewrite !bind_run.
      unfold emit at 1, modify at 1, log.
      destruct (smtp e _) as [x|].
      * unfold raise, emit, modify, log. now rewrite !add_events_app.
      * unfold ret, emit, modify, log. now rewrite !add_events_app.
Qed.

(** C9.  For every environment, record list, subject and state,
    [send_email] ends normally: it never raises and has no loop.  It leaves
    the database and the session alone.  When a credential is unset or the
    list is empty it makes no SMTP exchange; when the exchange raises, the
    exception is logged and goes no further. *)
Theorem send_email_never_raises (e : env) (articles : list PressArticle)
    (subject : string) (w : world) :
  exists evs,
    send_email e articles subject w = Some (Ok tt, add_events evs w)
    /\ (unset (EMAIL_USER e) = true \/ unset (EMAIL_PASS e) = true \/ articles = [] ->
        smtp_calls evs = [])
    /\ (forall msg x, In (Smtp msg) evs -> smtp e msg = Some x ->
                      In (Print (LogEmailError x)) evs)
    /\ (forall msg, In (Smtp msg) evs -> smtp e msg = None ->
                    In (Print LogEmailSent) evs).
Proof.
  exists (email_events e articles subject).
  split; [apply send_email_eq|].
  unfold email_events.
  destruct (unset (EMAIL_USER e) || unset (EMAIL_PASS e)) eqn:Hcred.
  - split; [reflexivity|]. split.
    + intros msg x [H|[H|[]]]; discriminate.
    + intros msg [H|[H|[]]]; discriminate.
  - apply orb_false_iff in Hcred as [Hu Hp].
    destruct articles as [|a rest].
    + split; [reflexivity|]. split.
      * intros msg x [H|[H|[]]]; discriminate.
      * intros msg [H|[H|[]]]; discriminate.
    + cbv zeta.
      remember (mkMessage subject _ _ (map render_row (a :: rest))) as m0 eqn:Hm0.
      clear Hm0.
      split; [intros [H|[H|H]]; congruence|].
      split.
      * intros msg x [H|[H|[H|[]]]] Hx; try discriminate.
        injection H as <-. rewrite Hx. right; right; now left.
      * intros msg [H|[H|[H|[]]]] Hx; try discriminate.
        injection H as <-. rewrite Hx. right; right; now left.
Qed.

Lemma email_events_notifications (e : env) (articles : list PressArticle)
    (subject : string) :
  notifications (email_events e articles subject) = [(articles, subject)].
Proof.
  unfold email_events.
  destruct (unset (EMAIL_USER e) || unset (EMAIL_PASS e)); [reflexivity|].
  destruct articles; reflexivity.
Qed.

Lemma email_events_no_scan_error (e : env) (articles : list PressArticle)
    (subject : string) :
  scan_failed (email_events e articles subject) = false.
Proof.
  unfold email_events.
  destruct (unset (EMAIL_USER e) || unset (EMAIL_PASS e)); [reflexivity|].
  destruct articles; [reflexivity|]. cbv zeta.
  destruct (smtp e _); reflexivity.
Qed.

(** ** Trace observers *)

Lemma notifications_app (a b : list event) :
  notifications (a ++ b) = notifications a ++ notifications b.
Proof.
  induction a as [|ev a IH]; [reflexivity|].
  destruct ev; simpl; now rewrite IH.
Qed.

Lemma smtp_calls_app (a b : list event) :
  smtp_calls (a ++ b) = smtp_calls a ++ smtp_calls b.
Proof.
  induction a as [|ev a IH]; [reflexivity|].
  destruct ev; simpl; now rewrite IH.
Qed.

Lemma scan_failed_app (a b : list event) :
  scan_failed (a ++ b) = scan_failed a || scan_failed b.
Proof. apply existsb_app. Qed.

Lemma sweep_events_quiet (evs : list event) :
  forallb is_sweep_event evs = true ->
  notifications evs = [] /\ smtp_calls evs = [] /\ scan_failed evs = false.
Proof.
  induction evs as [|ev evs IH]; [now repeat split|].
  simpl. rewrite andb_true_iff. intros [Hev Hrest].
  destruct (IH Hrest) as (Hn & Hs & Hf).
  destruct ev as [q s|a s|m|[]]; try discriminate; simpl; now repeat split.
Qed.

(** ** Session *)

Lemma has_url_iff (u : string) (rs : list row) :
  has_url u rs = true <-> In u (map row_url rs).
Proof.
  unfold has_url. rewrite existsb_exists, in_map_iff. split.
  - intros (r & Hin & Heq). exists r. apply String.eqb_eq in Heq. now split.
  - intros (r & Heq & Hin). exists r. split; [exact Hin | now apply String.eqb_eq].
Qed.

Lemma has_url_false (u : string) (rs : list row) :
  has_url u rs = false <-> ~ In u (map row_url rs).
Proof.
  rewrite <- has_url_iff. destruct (has_url u rs); split; congruence.
Qed.

Lemma stamp_art (e : env) (ps : list PressArticle) :
  forall n, map art (stamp e n ps) = ps.
Proof. induction ps as [|a ps IH]; intros n; simpl; [reflexivity | now rewrite IH]. Qed.

Lemma stamp_urls (e : env) (ps : list PressArticle) (n : nat) :
  map row_url (stamp e n ps) = map url ps.
Proof.
  unfold row_url. rewrite <- (map_map art url). now rewrite stamp_art.
Qed.

Lemma stamp_app (e : env) (a b : list PressArticle) :
  forall n, stamp e n (a ++ b) = stamp e n a ++ stamp e (n + List.length a) b.
Proof.
  induction a as [|x a IH]; intros n; simpl.
  - now rewrite Nat.add_0_r.
  - rewrite IH. do 3 f_equal. lia.
Qed.

Lemma stamp_length (e : env) (ps : list PressArticle) :
  forall n, List.length (stamp e n ps) = List.length ps.
Proof. induction ps as [|a ps IH]; intros n; simpl; [reflexivity | now rewrite IH]. Qed.

Lemma stamp_nth (e : env) (ps : list PressArticle) :
  forall n i a, nth_error ps i = Some a ->
                nth_error (stamp e n ps) i = Some (mkRow a (clock e (n + i))).
Proof.
  induction ps as [|x ps IH]; intros n i a Hi; [destruct i; discriminate|].
  destruct i as [|i]; simpl in *.
  - injection Hi as <-. now rewrite Nat.add_0_r.
  - rewrite (IH (S n) i a Hi). do 3 f_equal. lia.
Qed.

(** The row of an object has the object's columns, but for the
    publication time, which is a text or NULL. *)
Lemma as_stored_columns (e : env) (a stored : PressArticle) :
  as_stored e a = Some stored ->
  newspaper stored = newspaper a /\ language stored = language a
  /\ title stored = title a /\ url stored = url a
  /\ snippet stored = snippet a /\ query_used stored = query_used a
  /\ (publish_date stored = JNull \/ exists s, publish_date stored = JStr s).
Proof.
  unfold as_stored, stored_date.
  destruct (publish_date a) as [| b | n | s | l | kvs]; simpl;
    try (destruct (bind_text e _) as [t|]; simpl; [|discriminate]);
    intros H; injection H as <-; simpl; repeat split; eauto.
Qed.

(** A publication time that is a text or missing is stored as it is. *)
Lemma as_stored_text (e : env) (a : PressArticle) :
  publish_date a = JNull \/ (exists s, publish_date a = JStr s) ->
  as_stored e a = Some a.
Proof.
  unfold as_stored, stored_date. destruct a as [n l t u s q d]; simpl.
  intros [-> | [s' ->]]; reflexivity.
Qed.

Lemma insert_row_eq (e : env) (a : PressArticle) (w : world) :
  insert_row e a w =
  match as_stored e a with
  | None => Some (Raise BindError, set_ticks (S (ticks w)) w)
  | Some stored =>
      if has_url (url stored) (db w ++ txn w)
      then Some (Raise IntegrityError, set_ticks (S (ticks w)) w)
      else Some (Ok tt,
                 mkWorld (db w) (txn w ++ [mkRow stored (clock e (ticks w))]) (pending w)
                   (new_articles w) (S (ticks w)) (trace w))
  end.
Proof.
  unfold insert_row. rewrite bind_run. unfold utcnow.
  destruct (as_stored e a) as [stored|]; [|reflexivity].
  rewrite bind_run. unfold get. cbn [db txn set_ticks].
  destruct (has_url (url stored) (db w ++ txn w)); reflexivity.
Qed.

(** The INSERTs of a flush: they end, normally or not, and touch only the
    transaction and the clock; when they end normally every object has got
    its row, stamped with the next reading of the clock. *)
Lemma insert_all_spec (e : env) (ps : list PressArticle) :
  forall w, exists r w',
    for_each ps (insert_row e) w = Some (r, w')
    /\ db w' = db w /\ pending w' = pending w
    /\ new_articles w' = new_articles w /\ trace w' = trace w
    /\ (r = Ok tt ->
        exists stored,
          Forall2 (fun a a' => as_stored e a = Some a') ps stored
          /\ txn w' = txn w ++ stamp e (ticks w) stored
          /\ ticks w' = ticks w + List.length ps).
Proof.
  induction ps as [|a ps IH]; intros w.
  - exists (Ok tt), w. split; [reflexivity|]. repeat split.
    intros _. exists []. simpl. split; [constructor|]. split; [now rewrite app_nil_r | lia].
  - cbn [for_each]. rewrite bind_run, insert_row_eq.
    destruct (as_stored e a) as [stored|] eqn:Hst.
    2:{ eexists. eexists. split; [reflexivity|]. now repeat split. }
    destruct (has_url (url stored) (db w ++ txn w)).
    { eexists. eexists. split; [reflexivity|]. now repeat split. }
    destruct (IH (mkWorld (db w) (txn w ++ [mkRow stored (clock e (ticks w))]) (pending w)
                    (new_articles w) (S (ticks w)) (trace w)))
      as (r & w' & Hrun & Hdb & Hpend & Hnew & Htr & Hok).
    exists r, w'. split; [exact Hrun|]. cbn [db pending new_articles trace txn ticks] in *.
    split; [exact Hdb|]. split; [exact Hpend|]. split; [exact Hnew|]. split; [exact Htr|].
    intros Hr. destruct (Hok Hr) as (rest & Hall & Htxn & Hticks).
    exists (stored :: rest). split; [now constructor|].
    split; [|cbn [List.length]; lia].
    rewrite Htxn, <- app_assoc. reflexivity.
Qed.

(** [session.flush()]: it ends, normally or not, and touches only the
    session and the clock. *)
Lemma session_flush_spec (e : env) (w : world) :
  exists r w',
    session_flush e w = Some (r, w')
    /\ db w' = db w /\ new_articles w' = new_articles w /\ trace w' = trace w
    /\ (r = Ok tt ->
        pending w' = []
        /\ exists stored,
            Forall2 (fun a a' => as_stored e a = Some a') (pending w) stored
            /\ txn w' = txn w ++ stamp e (ticks w) stored
            /\ ticks w' = ticks w + List.length (pending w)).
Proof.
  unfold session_flush. rewrite bind_get.
  destruct (insert_all_spec e (pending w) w)
    as (r & w1 & Hrun & Hdb & Hpend & Hnew & Htr & Hok).
  rewrite bind_run, Hrun. destruct r as [[]|x].
  - eexists. eexists. split; [reflexivity|].
    cbn [db new_articles trace pending txn ticks set_pending].
    split; [exact Hdb|]. split; [exact Hnew|]. split; [exact Htr|].
    intros _. split; [reflexivity|]. exact (Hok eq_refl).
  - eexists. eexists. split; [reflexivity|].
    split; [exact Hdb|]. split; [exact Hnew|]. split; [exact Htr|]. discriminate.
Qed.

(** With nothing pending a flush does nothing. *)
Lemma session_flush_nil (e : env) (w : world) :
  pending w = [] -> session_flush e w = Some (Ok tt, w).
Proof.
  intros H. unfold session_flush. rewrite bind_get, H. cbn [for_each].
  unfold bind, ret, modify. destruct w; simpl in *. now subst.
Qed.

Lemma Forall2_stored_urls (e : env) (ps stored : list PressArticle) :
  Forall2 (fun a a' => as_stored e a = Some a') ps stored ->
  map url stored = map url ps /\ List.length stored = List.length ps.
Proof.
  induction 1 as [|a a' ps stored Ha _ [IH1 IH2]]; [now split|].
  simpl. destruct (as_stored_columns e a a' Ha) as (_ & _ & _ & Hu & _).
  now rewrite Hu, IH1, IH2.
Qed.

Lemma find_app_none {A} (f : A -> bool) (l1 l2 : list A) :
  find f l1 = None -> find f (l1 ++ l2) = find f l2.
Proof.
  induction l1 as [|x l1 IH]; [reflexivity|]. simpl.
  destruct (f x); [discriminate | exact IH].
Qed.

(** The objects of a commit, read again: each shows the columns of its
    row. *)
Lemma reload_rows (before rows : list row) (objs : list PressArticle) :
  map url objs = map row_url rows ->
  NoDup (map row_url (before ++ rows)) ->
  map (reload (before ++ rows)) objs = map art rows.
Proof.
  revert before objs. induction rows as [|r rows IH]; intros before objs Hurls Hnd.
  - destruct objs; [reflexivity | discriminate].
  - destruct objs as [|a objs]; [discriminate|].
    simpl in Hurls. injection Hurls as Hu Hrest.
    cbn [map]. f_equal.
    + unfold reload.
      assert (Hnone : find (fun r0 => String.eqb (row_url r0) (url a)) before = None).
      { destruct (find _ before) as [r0|] eqn:Hfind; [|reflexivity]. exfalso.
        apply find_some in Hfind as [Hin Heq]. apply String.eqb_eq in Heq.
        rewrite map_app in Hnd. cbn [map] in Hnd. apply NoDup_remove_2 in Hnd.
        apply Hnd. apply in_or_app. left. rewrite <- Hu, <- Heq. now apply in_map. }
      rewrite (find_app_none _ _ _ Hnone). cbn [find]. now rewrite Hu, String.eqb_refl.
    + change (before ++ r :: rows) with (before ++ [r] ++ rows).
      rewrite app_assoc. apply IH; [exact Hrest|].
      now rewrite <- app_assoc.
Qed.
(** ** The sweep keeps its invariant *)

Lemma NoDup_app_disjoint {A} (l1 l2 : list A) (a : A) :
  NoDup (l1 ++ l2) -> In a l1 -> In a l2 -> False.
Proof.
  induction l1 as [|x l1 IH]; intros Hnd H1 H2; [destruct H1|].
  simpl in Hnd. inversion Hnd as [|? ? Hx Hnd']; subst.
  destruct H1 as [->|H1].
  - apply Hx. apply in_or_app. now right.
  - now apply IH.
Qed.

Lemma map_row_url (rs : list row) : map row_url rs = map url (map art rs).
Proof. unfold row_url. now rewrite map_map. Qed.

Lemma find_url_none (u : string) (rs : list row) :
  find (fun r => String.eqb (row_url r) u) rs = None -> ~ In u (map row_url rs).
Proof.
  intros Hfind Hin. apply in_map_iff in Hin as (r & Hr & Hin).
  pose proof (find_none _ _ Hfind r Hin) as Hf. cbv beta in Hf.
  rewrite Hr, String.eqb_refl in Hf. discriminate.
Qed.

Lemma find_url_some (u : string) (rs : list row) (r : row) :
  find (fun r => String.eqb (row_url r) u) rs = Some r -> In u (map row_url rs).
Proof.
  intros Hfind. apply find_some in Hfind as [Hin Heq].
  apply String.eqb_eq in Heq. subst u. now apply in_map.
Qed.

Lemma get_calls_app (a b : list event) : get_calls (a ++ b) = get_calls a ++ get_calls b.
Proof.
  induction a as [|ev a IH]; [reflexivity|].
  destruct ev; simpl; now rewrite IH.
Qed.

Lemma get_calls_gets (q : string) (starts : list Z) :
  get_calls (map (Get q) starts) = map (pair q) starts.
Proof. induction starts as [|s starts IH]; simpl; [reflexivity | now rewrite IH]. Qed.

Lemma forallb_get_events (q : string) (starts : list Z) :
  forallb is_sweep_event (map (Get q) starts) = true.
Proof. induction starts; [reflexivity | exact IHstarts]. Qed.

Lemma queries_for_configured (domain query : string) :
  In query (queries_for domain) -> In query (ENGLISH_QUERIES ++ SINHALA_QUERIES).
Proof.
  unfold queries_for. intros H. apply in_or_app.
  destruct (existsb (String.eqb domain) SINHALA_DOMAINS); [now right | now left].
Qed.

Lemma scan_queries_in (domain query : string) :
  In domain (map fst NEWS_MAP) -> In query (queries_for domain) ->
  In (search_q query domain) scan_queries.
Proof.
  intros Hd Hq. unfold scan_queries. apply in_flat_map. exists domain.
  split; [exact Hd|]. apply in_map_iff. exists query. now split.
Qed.

Lemma sweep_trace_add_events (tr0 evs : list event) (w : world) :
  sweep_trace tr0 w ->
  forallb is_sweep_event evs = true ->
  Forall (fun c => In (fst c) scan_queries) (get_calls evs) ->
  sweep_trace tr0 (add_events evs w).
Proof.
  intros (evs0 & Ht & Hq & Hg) Hevs Hgets. exists (evs0 ++ evs). split; [|split].
  - simpl. now rewrite Ht, app_assoc.
  - now rewrite forallb_app, Hq, Hevs.
  - rewrite get_calls_app. apply Forall_app. now split.
Qed.

Lemma sweep_trace_same (tr0 : list event) (w w' : world) :
  trace w' = trace w -> sweep_trace tr0 w -> sweep_trace tr0 w'.
Proof. intros Heq (evs & Ht & H). exists evs. now rewrite Heq. Qed.

Lemma scan_inv_add_events (e : env) (db0 : list row) (t0 : nat) (tr0 evs : list event)
    (w : world) :
  scan_inv e db0 t0 tr0 w ->
  forallb is_sweep_event evs = true ->
  Forall (fun c => In (fst c) scan_queries) (get_calls evs) ->
  scan_inv e db0 t0 tr0 (add_events evs w).
Proof.
  intros [H1 H2 H3 H4 H5 H6 H7 H8 H9] Hevs Hgets.
  constructor; cbn [add_events db txn pending new_articles ticks]; auto.
  now apply sweep_trace_add_events.
Qed.

Lemma scan_inv_aborted (e : env) (db0 : list row) (t0 : nat) (tr0 : list event)
    (w : world) :
  scan_inv e db0 t0 tr0 w -> scan_aborted db0 tr0 w.
Proof. intros Hinv. split; [exact (inv_db _ _ _ _ _ Hinv) | exact (inv_trace _ _ _ _ _ Hinv)]. Qed.

(** The URLs of the new articles, once nothing is pending, are those of
    the rows of the transaction. *)
Lemma scan_inv_urls (e : env) (db0 : list row) (t0 : nat) (tr0 : list event) (w : world) :
  scan_inv e db0 t0 tr0 w -> pending w = [] ->
  map url (new_articles w) = map row_url (txn w).
Proof.
  intros Hinv Hpend. destruct (inv_new _ _ _ _ _ Hinv) as (ins & Hn & Hu).
  now rewrite Hn, Hpend, app_nil_r.
Qed.

Lemma record_ok_stored (e : env) (l : pylib) (a stored : PressArticle) :
  as_stored e a = Some stored -> record_ok l a -> record_ok l stored.
Proof.
  intros Hst (H1 & H2 & H3 & H4).
  destruct (as_stored_columns e a stored Hst) as (Hn & Hl & _ & Hu & _ & Hq & _).
  unfold record_ok. now rewrite Hn, Hl, Hu, Hq.
Qed.

Lemma stored_records_ok (e : env) (l : pylib) (ps stored : list PressArticle) :
  Forall2 (fun a a' => as_stored e a = Some a') ps stored ->
  Forall (record_ok l) ps -> Forall (record_ok l) stored.
Proof.
  induction 1 as [|a a' ps stored Ha _ IH]; intros Hok; [constructor|].
  inversion Hok; subst. constructor; [now apply (record_ok_stored e l a) | now apply IH].
Qed.

(** A flush during the sweep either gives every pending object its row
    and keeps the invariant, or raises and leaves the table alone. *)
Lemma scan_inv_flush (e : env) (db0 : list row) (t0 : nat) (tr0 : list event) (w : world) :
  scan_inv e db0 t0 tr0 w ->
  exists r w',
    session_flush e w = Some (r, w')
    /\ new_articles w' = new_articles w
    /\ match r with
       | Ok _ => scan_inv e db0 t0 tr0 w' /\ pending w' = []
       | Raise _ => scan_aborted db0 tr0 w'
       end.
Proof.
  intros [I1 I2 I3 I4 I5 I6 I7 I8 I9].
  destruct (session_flush_spec e w) as (r & w' & Hrun & Hdb & Hnew & Htr & Hok).
  exists r, w'. split; [exact Hrun|]. split; [exact Hnew|].
  destruct r as [[]|x].
  2:{ split; [now rewrite Hdb | exact (sweep_trace_same _ _ _ Htr I9)]. }
  destruct (Hok eq_refl) as (Hpend & stored & Hall & Htxn & Hticks).
  destruct (Forall2_stored_urls e _ _ Hall) as [Hurls Hlen].
  destruct I2 as (ins & Hn & Hu).
  split; [|exact Hpend]. constructor.
  - now rewrite Hdb.
  - exists (ins ++ pending w). rewrite Hnew, Hpend, app_nil_r. split; [exact Hn|].
    now rewrite Htxn, !map_app, stamp_urls, Hu, Hurls.
  - now rewrite Hnew.
  - now rewrite Hnew.
  - rewrite Htxn, map_app, stamp_art, stamp_app, length_map, <- I5, <- I6. reflexivity.
  - rewrite Htxn, length_app, stamp_length, Hticks. lia.
  - now rewrite Hnew.
  - rewrite Htxn, map_app, stamp_art. apply Forall_app. split; [exact I8|].
    apply (stored_records_ok e _ _ _ Hall).
    rewrite Hn in I7. apply Forall_app in I7. exact (proj2 I7).
  - exact (sweep_trace_same _ _ _ Htr I9).
Qed.

(** The lookup at line 222: autoflush, then the SELECT. *)
Lemma query_first_step (e : env) (db0 : list row) (t0 : nat) (tr0 : list event)
    (u : string) (w : world) :
  scan_inv e db0 t0 tr0 w ->
  exists r w',
    query_first_by_url e u w = Some (r, w')
    /\ new_articles w' = new_articles w
    /\ match r with
       | Ok found =>
           scan_inv e db0 t0 tr0 w' /\ pending w' = []
           /\ found = find (fun r => String.eqb (row_url r) u) (db0 ++ txn w')
       | Raise _ => scan_aborted db0 tr0 w'
       end.
Proof.
  intros Hinv.
  destruct (scan_inv_flush e db0 t0 tr0 w Hinv) as (r & w' & Hrun & Hnew & Hcase).
  unfold query_first_by_url. rewrite bind_run, Hrun.
  destruct r as [[]|x].
  - eexists. exists w'. split; [reflexivity|]. split; [exact Hnew|].
    destruct Hcase as [Hinv' Hpend]. split; [exact Hinv'|]. split; [exact Hpend|].
    now rewrite (inv_db _ _ _ _ _ Hinv').
  - exists (Raise x), w'. split; [reflexivity|]. split; [exact Hnew | exact Hcase].
Qed.

Lemma visited_mono (db0 : list row) (it : item) (w w' : world) :
  visited db0 it w -> incl (new_articles w) (new_articles w') -> visited db0 it w'.
Proof.
  intros Hv Hincl u Hl Hne. destruct (Hv u Hl Hne) as [H|H]; [now left|right].
  apply in_map_iff in H as (a & Ha & Hin). apply in_map_iff. exists a.
  split; [exact Ha | now apply Hincl].
Qed.

Lemma scan_item_step (e : env) (db0 : list row) (t0 : nat) (tr0 : list event)
    (query : string) (it : item) (w : world) (r : res unit) (w' : world) :
  In query (ENGLISH_QUERIES ++ SINHALA_QUERIES) ->
  scan_inv e db0 t0 tr0 w ->
  scan_item e query it w = Some (r, w') ->
  match r with
  | Ok _ =>
      scan_inv e db0 t0 tr0 w'
      /\ incl (new_articles w) (new_articles w')
      /\ visited db0 it w'
  | Raise _ => scan_aborted db0 tr0 w'
  end.
Proof.
  intros Hq Hinv. unfold scan_item.
  destruct (String.eqb match link it with Some s => s | None => EmptyString end EmptyString)
    eqn:Hempty.
  - intros H. inversion H; subst. split; [exact Hinv|]. split; [apply incl_refl|].
    intros u Hl Hne. rewrite Hl in Hempty. apply String.eqb_eq in Hempty. contradiction.
  - destruct (link it) as [u|] eqn:Hlink; [|discriminate].
    apply String.eqb_neq in Hempty.
    destruct (query_first_step e db0 t0 tr0 u w Hinv) as (rq & wf & Hrun & Hsame & Hcase).
    rewrite bind_run, Hrun.
    destruct rq as [found|x]; [|intros H; inversion H; subst; exact Hcase].
    destruct Hcase as (Hinvf & Hpend & Hfound).
    pose proof (scan_inv_urls e db0 t0 tr0 wf Hinvf Hpend) as Hurls.
    destruct found as [r0|].
    + intros H. inversion H; subst r w'. split; [exact Hinvf|].
      split; [rewrite Hsame; apply incl_refl|].
      intros u' Hl Hne. rewrite Hlink in Hl. injection Hl as <-.
      symmetry in Hfound. apply find_url_some in Hfound.
      rewrite map_app, in_app_iff in Hfound.
      destruct Hfound as [Hd|Ht]; [now left|right]. now rewrite Hurls.
    + symmetry in Hfound. apply find_url_none in Hfound.
      rewrite map_app, in_app_iff in Hfound.
      rewrite bind_run. unfold lift at 1.
      destruct (publish_date_of it) as [pub|x];
        [|intros H; inversion H; subst; exact (scan_inv_aborted _ _ _ _ _ Hinvf)].
      rewrite bind_run. unfold lift at 1.
      destruct (get_newspaper_name (lib e) u) as [name|x] eqn:Hname;
        [|intros H; inversion H; subst; exact (scan_inv_aborted _ _ _ _ _ Hinvf)].
      rewrite bind_run. unfold lift at 1.
      destruct (get_language (lib e) u) as [lang|x] eqn:Hlang;
        [|intros H; inversion H; subst; exact (scan_inv_aborted _ _ _ _ _ Hinvf)].
      rewrite bind_run. unfold session_add, modify.
      intros H. inversion H; subst r w'. clear H.
      set (a := mkArticle name lang (item_title it) u (item_snippet it) query pub).
      split; [|split].
      * destruct Hinvf as [I1 I2 I3 I4 I5 I6 I7 I8 I9].
        constructor;
          cbn [db txn pending new_articles trace ticks set_new_articles set_pending];
          try assumption.
        -- exists (new_articles wf). rewrite Hpend. split; [reflexivity | exact Hurls].
        -- rewrite map_app. apply NoDup_app; [exact I3 | repeat constructor; intros [] |].
           intros x Hx [Hxu|[]]. subst x. apply Hfound. right.
           rewrite <- Hurls. exact Hx.
        -- intros a' Ha'. apply in_app_iff in Ha' as [Ha'|[<-|[]]]; [now apply I4|].
           intros Hd. apply Hfound. now left.
        -- apply Forall_app. split; [exact I7|].
           constructor; [|constructor]. unfold record_ok. simpl. now repeat split.
      * cbn [new_articles set_new_articles set_pending]. rewrite <- Hsame.
        apply incl_appl, incl_refl.
      * intros u' Hl Hne. rewrite Hlink in Hl. injection Hl as <-. right.
        cbn [new_articles set_new_articles set_pending].
        rewrite map_app, in_app_iff. right. now left.
Qed.

Lemma query_swept_mono (e : env) (fuel : nat) (db0 : list row) (domain query : string)
    (w w' : world) :
  query_swept e fuel db0 domain query w -> incl (new_articles w) (new_articles w') ->
  query_swept e fuel db0 domain query w'.
Proof.
  intros (items & starts & Hp & Hv) Hincl. exists items, starts.
  split; [exact Hp|]. intros it Hit. exact (visited_mono _ _ _ _ (Hv it Hit) Hincl).
Qed.

Lemma scan_query_step (e : env) (fuel : nat) (db0 : list row) (t0 : nat)
    (tr0 : list event) (domain query : string) (w : world) (r : res unit) (w' : world) :
  In domain (map fst NEWS_MAP) -> In query (queries_for domain) ->
  scan_inv e db0 t0 tr0 w ->
  scan_query e fuel domain query w = Some (r, w') ->
  match r with
  | Ok _ =>
      scan_inv e db0 t0 tr0 w'
      /\ incl (new_articles w) (new_articles w')
      /\ query_swept e fuel db0 domain query w'
  | Raise _ => scan_aborted db0 tr0 w'
  end.
Proof.
  intros Hd Hq Hinv. unfold scan_query. rewrite bind_run.
  unfold emit at 1, modify at 1, log. rewrite bind_run, google_search_eq.
  destruct (pages_from e fuel (search_q query domain) 1 []) as [[[items|x] starts]|] eqn:Hp;
    [| |discriminate]; rewrite add_events_app.
  all: assert (Hinv1 : scan_inv e db0 t0 tr0
              (add_events ([Print (LogQuery query)]
                           ++ map (Get (search_q query domain)) starts) w))
    by (apply scan_inv_add_events;
        [ exact Hinv
        | simpl; apply forallb_get_events
        | simpl; rewrite get_calls_gets; apply Forall_forall; intros c Hc;
          apply in_map_iff in Hc as (s & <- & _); simpl; now apply scan_queries_in ]).
  - intros H.
    pose proof (for_each_inv (scan_inv e db0 t0 tr0) (scan_aborted db0 tr0)
                  (fun w1 w2 => incl (new_articles w1) (new_articles w2))
                  (visited db0) items (scan_item e query)
                  (fun w1 => incl_refl _)
                  (fun w1 w2 w3 H12 H23 => incl_tran H12 H23)
                  (visited_mono db0)
                  (fun it w1 r1 w2 _ =>
                     scan_item_step e db0 t0 tr0 query it w1 r1 w2
                       (queries_for_configured domain query Hq))
                  _ r w' Hinv1 H) as Hloop.
    destruct r as [t|x]; [|exact Hloop].
    destruct Hloop as (Hinv2 & Hincl & Hvis).
    split; [exact Hinv2|]. split; [exact Hincl|].
    exists items, starts. split; [exact Hp | exact Hvis].
  - intros H. inversion H; subst. exact (scan_inv_aborted _ _ _ _ _ Hinv1).
Qed.

Lemma domain_swept_mono (e : env) (fuel : nat) (db0 : list row) (domain : string)
    (w w' : world) :
  domain_swept e fuel db0 domain w -> incl (new_articles w) (new_articles w') ->
  domain_swept e fuel db0 domain w'.
Proof.
  intros Hd Hincl query Hq. exact (query_swept_mono _ _ _ _ _ _ _ (Hd query Hq) Hincl).
Qed.

Lemma scan_domain_step (e : env) (fuel : nat) (db0 : list row) (t0 : nat)
    (tr0 : list event) (domain : string) (w : world) (r : res unit) (w' : world) :
  In domain (map fst NEWS_MAP) ->
  scan_inv e db0 t0 tr0 w ->
  scan_domain e fuel domain w = Some (r, w') ->
  match r with
  | Ok _ =>
      scan_inv e db0 t0 tr0 w'
      /\ incl (new_articles w) (new_articles w')
      /\ domain_swept e fuel db0 domain w'
  | Raise _ => scan_aborted db0 tr0 w'
  end.
Proof.
  intros Hd Hinv. unfold scan_domain. rewrite bind_run.
  unfold emit at 1, modify at 1, log. intros H.
  assert (Hinv1 : scan_inv e db0 t0 tr0 (add_events [Print (LogScanning domain)] w))
    by (apply scan_inv_add_events; [exact Hinv | reflexivity | constructor]).
  pose proof (for_each_inv (scan_inv e db0 t0 tr0) (scan_aborted db0 tr0)
                (fun w1 w2 => incl (new_articles w1) (new_articles w2))
                (query_swept e fuel db0 domain) (queries_for domain)
                (scan_query e fuel domain)
                (fun w1 => incl_refl _)
                (fun w1 w2 w3 H12 H23 => incl_tran H12 H23)
                (query_swept_mono e fuel db0 domain)
                (fun q w1 r1 w2 Hq =>
                   scan_query_step e fuel db0 t0 tr0 domain q w1 r1 w2 Hd Hq)
                _ r w' Hinv1 H) as Hloop.
  destruct r as [t|x]; [|exact Hloop].
  destruct Hloop as (Hinv2 & Hincl & Hsw).
  split; [exact Hinv2|]. split; [exact Hincl|].
  intros query Hq. now apply Hsw.
Qed.

Lemma sweep_step (e : env) (fuel : nat) (db0 : list row) (t0 : nat) (tr0 : list event)
    (w : world) (r : res unit) (w' : world) :
  scan_inv e db0 t0 tr0 w ->
  for_each (map fst NEWS_MAP) (scan_domain e fuel) w = Some (r, w') ->
  match r with
  | Ok _ =>
      scan_inv e db0 t0 tr0 w'
      /\ forall domain, In domain (map fst NEWS_MAP) -> domain_swept e fuel db0 domain w'
  | Raise _ => scan_aborted db0 tr0 w'
  end.
Proof.
  intros Hinv H.
  pose proof (for_each_inv (scan_inv e db0 t0 tr0) (scan_aborted db0 tr0)
                (fun w1 w2 => incl (new_articles w1) (new_articles w2))
                (domain_swept e fuel db0) (map fst NEWS_MAP)
                (scan_domain e fuel)
                (fun w1 => incl_refl _)
                (fun w1 w2 w3 H12 H23 => incl_tran H12 H23)
                (domain_swept_mono e fuel db0)
                (fun d w1 r1 w2 Hd => scan_domain_step e fuel db0 t0 tr0 d w1 r1 w2 Hd)
                _ r w' Hinv H) as Hloop.
  destruct r as [t|x]; [|exact Hloop].
  destruct Hloop as (Hinv2 & _ & Hsw). split; [exact Hinv2 | exact Hsw].
Qed.
(** ** Anatomy of one scan *)

Lemma finally_close {A} (m : M A) (w : world) :
  finally m session_close w =
  match m w with
  | None => None
  | Some (r, w') => Some (r, closed w')
  end.
Proof. unfold finally. destruct (m w) as [[r w']|]; reflexivity. Qed.

Lemma events_since_app (w w' : world) (evs : list event) :
  trace w' = trace w ++ evs -> events_since w w' = evs.
Proof.
  intros H. unfold events_since. rewrite H, skipn_app, skipn_all, Nat.sub_diag.
  reflexivity.
Qed.

Lemma email_events_no_get (e : env) (articles : list PressArticle) (subject : string) :
  get_calls (email_events e articles subject) = [].
Proof.
  unfold email_events.
  destruct (unset (EMAIL_USER e) || unset (EMAIL_PASS e)); [reflexivity|].
  destruct articles; reflexivity.
Qed.

Lemma scan_start_inv (e : env) (w : world) :
  scan_inv e (db w) (ticks w) (trace w) (scan_start w).
Proof.
  constructor; simpl; try reflexivity.
  - exists []. now split.
  - constructor.
  - intros a [].
  - lia.
  - constructor.
  - constructor.
  - exists []. split; [now rewrite app_nil_r|]. split; [reflexivity | constructor].
Qed.

(** The commit at the end of a sweep.  Either the last flush gives the
    pending objects their rows, the rows of the transaction join the table
    and the new articles are read from them from then on; or the flush
    raises and the table is as it was. *)
Lemma session_commit_step (e : env) (db0 : list row) (t0 : nat) (tr0 : list event)
    (w : world) :
  scan_inv e db0 t0 tr0 w ->
  exists r w',
    session_commit e w = Some (r, w')
    /\ match r with
       | Ok _ =>
           exists rows,
             db w' = db0 ++ rows /\ new_articles w' = map art rows
             /\ txn w' = [] /\ pending w' = []
             /\ map row_url rows = map url (new_articles w)
             /\ NoDup (map row_url rows)
             /\ (forall u, In u (map row_url rows) -> ~ In u (map row_url db0))
             /\ rows = stamp e t0 (map art rows)
             /\ ticks w' = t0 + List.length rows
             /\ Forall (record_ok (lib e)) (map art rows)
             /\ sweep_trace tr0 w'
       | Raise _ => scan_aborted db0 tr0 w'
       end.
Proof.
  intros Hinv.
  destruct (scan_inv_flush e db0 t0 tr0 w Hinv) as (r & wf & Hrun & Hnew & Hcase).
  unfold session_commit. rewrite bind_run, Hrun.
  destruct r as [[]|x]; [|exists (Raise x), wf; now split].
  destruct Hcase as [Hinvf Hpend].
  pose proof (scan_inv_urls e db0 t0 tr0 wf Hinvf Hpend) as Hurls.
  destruct Hinvf as [I1 I2 I3 I4 I5 I6 I7 I8 I9].
  eexists. eexists. split; [reflexivity|].
  exists (txn wf). cbn [db new_articles txn pending ticks].
  assert (Hnd : NoDup (map row_url (txn wf))) by now rewrite <- Hurls.
  split; [now rewrite I1|]. split.
  { exact (reload_rows [] (txn wf) (new_articles wf) Hurls Hnd). }
  split; [reflexivity|]. split; [exact Hpend|].
  split; [now rewrite <- Hurls, Hnew|]. split; [exact Hnd|]. split.
  { intros u Hu. rewrite <- Hurls in Hu. apply in_map_iff in Hu as (a & <- & Ha).
    now apply I4. }
  split; [exact I5|]. split; [exact I6|]. split; [exact I8|].
  destruct I9 as (evs & Ht & Hq). exists evs. now split.
Qed.

Lemma swept_all_known (e : env) (fuel : nat) (db0 rows : list row) (ws : world) :
  map row_url rows = map url (new_articles ws) ->
  (forall domain, In domain (map fst NEWS_MAP) -> domain_swept e fuel db0 domain ws) ->
  all_known e fuel (map row_url (db0 ++ rows)).
Proof.
  intros Hurls Hswept domain query Hd Hq.
  destruct (Hswept domain Hd query Hq) as (items & starts & Hp & Hv).
  exists items, starts. split; [exact Hp|].
  intros it u Hit Hl Hne. rewrite map_app, in_app_iff.
  destruct (Hv it Hit u Hl Hne) as [H|H]; [now left|right].
  now rewrite Hurls.
Qed.

Lemma scan_try_cases (e : env) (fuel : nat) (b : bool) (db0 : list row) (t0 : nat)
    (tr0 : list event) (w0 : world) (r : res unit) (wa : world) :
  scan_inv e db0 t0 tr0 w0 ->
  scan_try e fuel b w0 = Some (r, wa) ->
  match r with
  | Ok _ =>
      exists rows wc,
        db wc = db0 ++ rows /\ new_articles wc = map art rows
        /\ txn wc = [] /\ pending wc = []
        /\ NoDup (map row_url rows)
        /\ (forall u, In u (map row_url rows) -> ~ In u (map row_url db0))
        /\ rows = stamp e t0 (map art rows)
        /\ ticks wc = t0 + List.length rows
        /\ Forall (record_ok (lib e)) (map art rows)
        /\ sweep_trace tr0 wc
        /\ all_known e fuel (map row_url (db0 ++ rows))
        /\ wa = add_events (mail_events e b (map art rows)) wc
  | Raise _ => scan_aborted db0 tr0 wa
  end.
Proof.
  intros Hinv. unfold scan_try. rewrite bind_run.
  destruct (for_each (map fst NEWS_MAP) (scan_domain e fuel) w0) as [[[u|x] ws]|] eqn:Hsweep;
    [| |discriminate].
  2:{ intros H. inversion H; subst.
      exact (sweep_step e fuel db0 t0 tr0 w0 (Raise x) wa Hinv Hsweep). }
  destruct (sweep_step e fuel db0 t0 tr0 w0 (Ok u) ws Hinv Hsweep) as [Hinvs Hswept].
  destruct (session_commit_step e db0 t0 tr0 ws Hinvs) as (rc & wc & Hcommit & Hcase).
  rewrite bind_run, Hcommit.
  destruct rc as [[]|x]; [|intros H; inversion H; subst; exact Hcase].
  destruct Hcase as (rows & Hdb & Hnew & Htxn & Hpend & Hurls & Hnd & Hfresh & Hst & Hticks
                     & Hok & Htr).
  rewrite bind_get, Hnew. intros H.
  assert (Hr : r = Ok tt /\ wa = add_events (mail_events e b (map art rows)) wc).
  { unfold mail_events. destruct (map art rows) as [|a rest].
    - inversion H. now rewrite add_events_nil.
    - destruct b.
      + rewrite send_email_eq in H. now inversion H.
      + inversion H. now rewrite add_events_nil. }
  destruct Hr as [-> Hwa].
  exists rows, wc. repeat (split; [assumption|]).
  split; [|exact Hwa].
  exact (swept_all_known e fuel db0 rows ws Hurls Hswept).
Qed.

Lemma mail_events_facts (e : env) (b : bool) (found : list PressArticle) :
  get_calls (mail_events e b found) = []
  /\ scan_failed (mail_events e b found) = false
  /\ notifications (mail_events e b found) =
     match found with
     | _ :: _ => if b then [(found, MANUAL_SUBJECT)] else []
     | [] => []
     end
  /\ (b = false -> smtp_calls (mail_events e b found) = []).
Proof.
  unfold mail_events. destruct found as [|a rest]; [now repeat split|].
  destruct b; [|now repeat split].
  split; [apply email_events_no_get|]. split; [apply email_events_no_scan_error|].
  split; [apply email_events_notifications | discriminate].
Qed.

(** One scan, whatever its input.  It returns a list and leaves no session
    behind; every request it sent went to a configured pair.  Either it
    committed its batch: the returned records are the columns of the rows it
    added, whose URLs differ from each other and from the stored ones, which
    carry the clock readings that follow the ones taken before, and which
    then hold every link the searches returned.  Or it failed and left the
    table as it was, without a call of the notifier. *)
Lemma run_scan_and_save_anatomy (e : env) (fuel : nat) (b : bool) (w : world)
    (r : res (list PressArticle)) (w' : world) :
  run_scan_and_save e fuel b w = Some (r, w') ->
  exists found evs,
    r = Ok found
    /\ new_articles w' = found /\ txn w' = [] /\ pending w' = []
    /\ trace w' = trace w ++ evs
    /\ Forall (fun c => In (fst c) scan_queries) (get_calls evs)
    /\ ((exists rows,
            db w' = db w ++ rows
            /\ map art rows = found
            /\ NoDup (map row_url rows)
            /\ (forall u, In u (map row_url rows) -> ~ In u (map row_url (db w)))
            /\ rows = stamp e (ticks w) found
            /\ ticks w' = ticks w + List.length found
            /\ Forall (record_ok (lib e)) found
            /\ scan_failed evs = false
            /\ all_known e fuel (map row_url (db w'))
            /\ notifications evs =
               match found with
               | _ :: _ => if b then [(found, MANUAL_SUBJECT)] else []
               | [] => []
               end
            /\ (b = false -> smtp_calls evs = []))
        \/ (db w' = db w
            /\ scan_failed evs = true
            /\ notifications evs = []
            /\ smtp_calls evs = []
            /\ exists x, In (Print (LogScanError x)) evs)).
Proof.
  unfold run_scan_and_save, SessionLocal.
  rewrite bind_modify, bind_modify, bind_run, finally_close.
  change (set_new_articles [] (set_pending [] (set_txn [] w))) with (scan_start w).
  pose proof (scan_start_inv e w) as Hinv0.
  unfold try_except.
  destruct (scan_try e fuel b (scan_start w)) as [[[u|x] wa]|] eqn:Htry; [| |discriminate].
  - destruct (scan_try_cases e fuel b _ _ _ _ _ _ Hinv0 Htry)
      as (rows & wc & Hdb & Hnew & Htxn & Hpend & Hnd & Hfresh & Hst & Hticks & Hok & Htr
          & Hknown & Hwa).
    unfold get. intros H. inversion H; subst r w'. clear H.
    destruct Htr as (evs0 & Htr & Hquiet & Hgets).
    destruct (sweep_events_quiet evs0 Hquiet) as (Hn0 & Hs0 & Hf0).
    destruct (mail_events_facts e b (map art rows)) as (Mg & Mf & Mn & Ms).
    exists (map art rows), (evs0 ++ mail_events e b (map art rows)).
    subst wa. cbn [closed add_events new_articles txn pending trace db ticks
                   set_pending set_txn].
    split; [now rewrite Hnew|]. split; [exact Hnew|]. split; [reflexivity|].
    split; [reflexivity|]. split; [now rewrite Htr, app_assoc|].
    split; [now rewrite get_calls_app, Mg, app_nil_r|].
    left. exists rows.
    split; [exact Hdb|]. split; [reflexivity|]. split; [exact Hnd|].
    split; [exact Hfresh|]. split; [exact Hst|].
    split; [now rewrite length_map|]. split; [exact Hok|].
    split; [now rewrite scan_failed_app, Hf0, Mf|].
    split; [now rewrite Hdb|].
    split; [now rewrite notifications_app, Hn0, Mn|].
    intros Hb. now rewrite smtp_calls_app, Hs0, (Ms Hb).
  - destruct (scan_try_cases e fuel b _ _ _ _ _ _ Hinv0 Htry) as (Hdb & evs0 & Htr & Hquiet & Hgets).
    unfold session_rollback. rewrite bind_modify.
    unfold emit, modify, get, log. intros H. inversion H; subst r w'. clear H.
    destruct (sweep_events_quiet evs0 Hquiet) as (Hn0 & Hs0 & Hf0).
    exists (new_articles wa), (evs0 ++ [Print (LogScanError x)]).
    cbn [closed add_events new_articles txn pending trace db set_pending set_txn].
    split; [reflexivity|]. split; [reflexivity|]. split; [reflexivity|].
    split; [reflexivity|]. split; [now rewrite Htr, app_assoc|].
    split; [rewrite get_calls_app; simpl; now rewrite app_nil_r|].
    right. split; [exact Hdb|]. split.
    { rewrite scan_failed_app, Hf0. reflexivity. }
    split; [now rewrite notifications_app, Hn0|].
    split; [now rewrite smtp_calls_app, Hs0|].
    exists x. apply in_or_app. right. now left.
Qed.

(** One scan, as far as the table, the trace and the returned list go. *)
Lemma run_scan_and_save_cases (e : env) (fuel : nat) (b : bool) (w : world)
    (r : res (list PressArticle)) (w' : world) :
  run_scan_and_save e fuel b w = Some (r, w') ->
  exists found evs,
    r = Ok found
    /\ new_articles w' = found /\ txn w' = [] /\ pending w' = []
    /\ trace w' = trace w ++ evs
    /\ ((exists rows,
            db w' = db w ++ rows
            /\ map art rows = found
            /\ NoDup (map row_url rows)
            /\ (forall u, In u (map row_url rows) -> ~ In u (map row_url (db w)))
            /\ scan_failed evs = false
            /\ all_known e fuel (map row_url (db w'))
            /\ notifications evs =
               match found with
               | _ :: _ => if b then [(found, MANUAL_SUBJECT)] else []
               | [] => []
               end
            /\ (b = false -> smtp_calls evs = []))
        \/ (db w' = db w
            /\ scan_failed evs = true
            /\ notifications evs = []
            /\ smtp_calls evs = []
            /\ exists x, In (Print (LogScanError x)) evs)).
Proof.
  intros Hrun.
  destruct (run_scan_and_save_anatomy e fuel b w r w' Hrun)
    as (found & evs & Hr & Hnew & Htxn & Hpend & Htr & _ & Hcases).
  exists found, evs. repeat (split; [assumption|]).
  destruct Hcases as [(rows & H1 & H2 & H3 & H4 & _ & _ & _ & H5 & H6 & H7 & H8) | Hfail].
  - left. exists rows. now repeat (split; [assumption|]).
  - now right.
Qed.

(** One scan in detail: every request went to a configured pair, and a
    scan that logged no scan error has added the returned records, which are
    well formed, as rows carrying the clock readings that follow the ones
    taken before. *)
Lemma run_scan_and_save_details (e : env) (fuel : nat) (b : bool) (w : world)
    (r : res (list PressArticle)) (w' : world) :
  run_scan_and_save e fuel b w = Some (r, w') ->
  exists found,
    r = Ok found
    /\ Forall (fun c => In (fst c) scan_queries) (get_calls (events_since w w'))
    /\ (scan_failed (events_since w w') = false ->
        db w' = db w ++ stamp e (ticks w) found
        /\ ticks w' = ticks w + List.length found
        /\ Forall (record_ok (lib e)) found).
Proof.
  intros Hrun.
  destruct (run_scan_and_save_anatomy e fuel b w r w' Hrun)
    as (found & evs & Hr & _ & _ & _ & Htr & Hgets & Hcases).
  rewrite (events_since_app w w' evs Htr).
  exists found. split; [exact Hr|]. split; [exact Hgets|].
  intros Hok.
  destruct Hcases as [(rows & Hdb & _ & _ & _ & Hst & Hticks & Hrec & _) | (_ & Hfail & _)];
    [|congruence].
  rewrite Hdb, Hst. now repeat split.
Qed.

(** A scan as a function of what its [try] block does. *)
Lemma run_scan_and_save_eq (e : env) (fuel : nat) (b : bool) (w : world) :
  run_scan_and_save e fuel b w =
  match scan_try e fuel b (scan_start w) with
  | None => None
  | Some (Ok _, wa) => Some (Ok (new_articles wa), closed wa)
  | Some (Raise x, wa) =>
      Some (Ok (new_articles wa),
            closed (add_events [Print (LogScanError x)] (set_pending [] (set_txn [] wa))))
  end.
Proof.
  unfold run_scan_and_save, SessionLocal.
  rewrite bind_modify, bind_modify, bind_run, finally_close.
  change (set_new_articles [] (set_pending [] (set_txn [] w))) with (scan_start w).
  unfold try_except.
  destruct (scan_try e fuel b (scan_start w)) as [[[u|x] wa]|]; reflexivity.
Qed.

(** The [try] block itself logs no scan error. *)
Lemma scan_try_trace (e : env) (fuel : nat) (b : bool) (w : world) (r : res unit)
    (wa : world) :
  scan_try e fuel b (scan_start w) = Some (r, wa) ->
  exists evs, trace wa = trace w ++ evs /\ scan_failed evs = false.
Proof.
  intros Htry.
  pose proof (scan_try_cases e fuel b _ _ _ _ _ _ (scan_start_inv e w) Htry) as Hcase.
  destruct r as [u|x].
  - destruct Hcase as (rows & wc & _ & _ & _ & _ & _ & _ & _ & _ & _ & Htr & _ & Hwa).
    destruct Htr as (evs0 & Htr & Hquiet & _).
    destruct (sweep_events_quiet evs0 Hquiet) as (_ & _ & Hf0).
    destruct (mail_events_facts e b (map art rows)) as (_ & Mf & _).
    exists (evs0 ++ mail_events e b (map art rows)). subst wa. split.
    + cbn [add_events trace]. now rewrite Htr, app_assoc.
    + now rewrite scan_failed_app, Hf0, Mf.
  - destruct Hcase as (_ & evs0 & Htr & Hquiet & _).
    exists evs0. split; [exact Htr|]. exact (proj2 (proj2 (sweep_events_quiet evs0 Hquiet))).
Qed.

(** ** A scan over links that are all stored *)

Lemma find_url_in (u : string) (rs : list row) :
  In u (map row_url rs) ->
  exists r, find (fun r => String.eqb (row_url r) u) rs = Some r.
Proof.
  intros Hin. destruct (find _ rs) as [r|] eqn:Hfind; [now exists r|].
  exfalso. exact (find_url_none u rs Hfind Hin).
Qed.

Lemma scan_inv_nothing_new (e : env) (db0 : list row) (t0 : nat) (tr0 : list event)
    (w : world) :
  scan_inv e db0 t0 tr0 w -> new_articles w = [] ->
  pending w = [] /\ txn w = [] /\ ticks w = t0.
Proof.
  intros Hinv Hnone. destruct (inv_new _ _ _ _ _ Hinv) as (ins & Hn & Hu).
  rewrite Hnone in Hn. symmetry in Hn. apply app_eq_nil in Hn as [-> Hpend].
  symmetry in Hu. apply map_eq_nil in Hu.
  split; [exact Hpend|]. split; [exact Hu|].
  rewrite (inv_ticks _ _ _ _ _ Hinv), Hu. simpl. lia.
Qed.

Lemma scan_item_known (e : env) (db0 : list row) (t0 : nat) (tr0 : list event)
    (query : string) (it : item) (w : world) :
  (forall u, link it = Some u -> u <> EmptyString -> In u (map row_url db0)) ->
  scan_inv e db0 t0 tr0 w /\ new_articles w = [] ->
  exists w', scan_item e query it w = Some (Ok tt, w')
             /\ scan_inv e db0 t0 tr0 w' /\ new_articles w' = [].
Proof.
  intros Hknown (Hinv & Hnone). unfold scan_item.
  destruct (String.eqb match link it with Some s => s | None => EmptyString end EmptyString)
    eqn:Hempty.
  - exists w. split; [reflexivity|]. now split.
  - destruct (link it) as [u|] eqn:Hlink; [|discriminate].
    apply String.eqb_neq in Hempty.
    destruct (scan_inv_nothing_new e db0 t0 tr0 w Hinv Hnone) as (Hpend & _).
    destruct (find_url_in u (db w ++ txn w)) as [r0 Hr0].
    { rewrite map_app, in_app_iff, (inv_db _ _ _ _ _ Hinv). left. now apply Hknown. }
    rewrite bind_run. unfold query_first_by_url.
    rewrite bind_run, (session_flush_nil e w Hpend). unfold get.
    rewrite Hr0. exists w. split; [reflexivity|]. now split.
Qed.

Lemma sweep_known (e : env) (fuel : nat) (db0 : list row) (t0 : nat) (tr0 : list event) :
  all_known e fuel (map row_url db0) ->
  forall w,
    scan_inv e db0 t0 tr0 w /\ new_articles w = [] ->
    exists w', for_each (map fst NEWS_MAP) (scan_domain e fuel) w = Some (Ok tt, w')
               /\ scan_inv e db0 t0 tr0 w' /\ new_articles w' = [].
Proof.
  intros Hall.
  apply (for_each_total (fun w => scan_inv e db0 t0 tr0 w /\ new_articles w = [])).
  intros domain w Hd (Hinv & Hnone).
  unfold scan_domain. rewrite bind_run. unfold emit at 1, modify at 1, log.
  apply (for_each_total (fun w => scan_inv e db0 t0 tr0 w /\ new_articles w = [])).
  2:{ split; [|exact Hnone].
      apply scan_inv_add_events; [exact Hinv | reflexivity | constructor]. }
  intros query w1 Hq (Hinv1 & Hnone1).
  destruct (Hall domain query Hd Hq) as (items & starts & Hp & Hknown).
  unfold scan_query. rewrite bind_run. unfold emit at 1, modify at 1, log.
  rewrite bind_run, google_search_eq, Hp, add_events_app.
  apply (for_each_total (fun w => scan_inv e db0 t0 tr0 w /\ new_articles w = [])).
  2:{ split; [|exact Hnone1].
      apply scan_inv_add_events; [exact Hinv1 | simpl; apply forallb_get_events |].
      simpl. rewrite get_calls_gets. apply Forall_forall. intros c Hc.
      apply in_map_iff in Hc as (s & <- & _). simpl. now apply scan_queries_in. }
  intros it w2 Hit HJ. apply scan_item_known; [|exact HJ].
  intros u Hl Hne. exact (Hknown it u Hit Hl Hne).
Qed.

(** When every link the searches return is stored already, a scan ends
    normally, returns the empty list and changes nothing but the trace. *)
Lemma rescan_known (e : env) (fuel : nat) (b : bool) (w : world) :
  all_known e fuel (map row_url (db w)) ->
  exists w' evs,
    run_scan_and_save e fuel b w = Some (Ok [], w')
    /\ db w' = db w /\ ticks w' = ticks w
    /\ trace w' = trace w ++ evs
    /\ scan_failed evs = false /\ notifications evs = [] /\ smtp_calls evs = [].
Proof.
  intros Hall.
  unfold run_scan_and_save, SessionLocal.
  rewrite bind_modify, bind_modify, bind_run, finally_close.
  change (set_new_articles [] (set_pending [] (set_txn [] w))) with (scan_start w).
  destruct (sweep_known e fuel (db w) (ticks w) (trace w) Hall (scan_start w))
    as (ws & Hsweep & Hinvs & Hnone).
  { split; [apply scan_start_inv | reflexivity]. }
  destruct (scan_inv_nothing_new e _ _ _ ws Hinvs Hnone) as (Hpend & Htxn & Hticks).
  unfold try_except, scan_try. rewrite bind_run, Hsweep.
  rewrite bind_run. unfold session_commit.
  rewrite bind_run, (session_flush_nil e ws Hpend). unfold modify.
  rewrite bind_get. cbn [new_articles]. rewrite Hnone. cbn [map].
  unfold ret, get.
  destruct (inv_trace _ _ _ _ _ Hinvs) as (evs & Htr & Hquiet & _).
  destruct (sweep_events_quiet evs Hquiet) as (Hn & Hs & Hf).
  eexists. exists evs. split; [reflexivity|].
  cbn [closed db ticks trace set_pending set_txn].
  rewrite Htxn, app_nil_r, (inv_db _ _ _ _ _ Hinvs).
  split; [reflexivity|]. split; [exact Hticks|]. split; [exact Htr|]. now repeat split.
Qed.

(** ** Ordering of the window query *)

Lemma insert_desc_perm (r : row) (l : list row) : Permutation (r :: l) (insert_desc r l).
Proof.
  induction l as [|r' l IH]; simpl; [apply Permutation_refl|].
  destruct (created_at r <? created_at r')%Z; [|apply Permutation_refl].
  apply perm_trans with (r' :: r :: l); [apply perm_swap | now apply perm_skip].
Qed.

Lemma order_by_perm (l : list row) : Permutation l (order_by_created_at_desc l).
Proof.
  induction l as [|r l IH]; simpl; [apply Permutation_refl|].
  apply perm_trans with (r :: order_by_created_at_desc l);
    [now apply perm_skip | apply insert_desc_perm].
Qed.

Lemma insert_desc_sorted (r : row) (l : list row) :
  StronglySorted (fun r1 r2 => (created_at r2 <= created_at r1)%Z) l ->
  StronglySorted (fun r1 r2 => (created_at r2 <= created_at r1)%Z) (insert_desc r l).
Proof.
  induction l as [|r' l IH]; intros Hs; simpl.
  - constructor; constructor.
  - inversion Hs as [|? ? Hs' Hall]; subst.
    destruct (Z.ltb_spec (created_at r) (created_at r')).
    + constructor; [now apply IH|].
      apply (Permutation_Forall (insert_desc_perm r l)).
      constructor; [lia | exact Hall].
    + constructor; [exact Hs|]. constructor; [lia|].
      apply (Forall_impl _ (P := fun r2 => (created_at r2 <= created_at r')%Z));
        [intros; lia | exact Hall].
Qed.

Lemma order_by_sorted (l : list row) :
  StronglySorted (fun r1 r2 => (created_at r2 <= created_at r1)%Z)
    (order_by_created_at_desc l).
Proof.
  induction l as [|r l IH]; simpl; [constructor | now apply insert_desc_sorted].
Qed.

Lemma in_window_iff (since_utc now_utc : Z) (r : row) :
  in_window since_utc now_utc r = true <->
  (since_utc <= created_at r <= now_utc)%Z.
Proof. unfold in_window. rewrite andb_true_iff, !Z.leb_le. tauto. Qed.

(** ** The scan: batch, rollback, repetition *)

(** C10.  A scan that returns without having logged a scan error has
    committed a batch: the rows it added to the table are exactly the
    returned records, no two of them have the same URL, and none has the
    URL of a row that was stored before, whatever the searches returned and
    however often a URL came back. *)
Theorem scan_batch_urls_distinct (e : env) (fuel : nat) (b : bool) (w : world)
    (r : res (list PressArticle)) (w' : world) :
  run_scan_and_save e fuel b w = Some (r, w') ->
  scan_failed (events_since w w') = false ->
  exists rows,
    db w' = db w ++ rows
    /\ r = Ok (map art rows)
    /\ NoDup (map row_url rows)
    /\ (forall u, In u (map row_url rows) -> ~ In u (map row_url (db w))).
Proof.
  intros Hrun Hok.
  destruct (run_scan_and_save_cases e fuel b w r w' Hrun)
    as (found & evs & Hr & _ & _ & _ & Htr & Hcases).
  rewrite (events_since_app w w' evs Htr) in Hok.
  destruct Hcases as [(rows & Hdb & Hart & Hnd & Hfresh & _) | (_ & Hfail & _)];
    [|congruence].
  exists rows. repeat split; try assumption. now rewrite Hart.
Qed.

(** C10, an instance: two searches whose results overlap, one URL twice in
    one page. *)
Lemma scan_batch_urls_distinct_witness :
  exists r w',
    run_scan_and_save (env_of_api api_overlap) 3 false empty_world = Some (r, w')
    /\ exists rows,
        db w' = db empty_world ++ rows
        /\ r = Ok (map art rows)
        /\ NoDup (map row_url rows)
        /\ (forall u, In u (map row_url rows) -> ~ In u (map row_url (db empty_world))).
Proof.
  assert (H : exists r w',
             run_scan_and_save (env_of_api api_overlap) 3 false empty_world = Some (r, w')
             /\ scan_failed (events_since empty_world w') = false).
  { vm_compute. eexists. eexists. split; reflexivity. }
  destruct H as (r & w' & Hrun & Hok). exists r, w'.
  split; [exact Hrun|].
  exact (scan_batch_urls_distinct _ _ _ _ _ _ Hrun Hok).
Defined.

(** C1, at a failing input.  The first search finds an article, the next
    request fails: the scan rolls back, stores nothing and sends nothing,
    yet it returns the article it had found. *)
Theorem failed_scan_returns_unsaved_records :
  exists a w',
    run_scan_and_save (env_of_api api_outage) 3 true empty_world = Some (Ok [a], w')
    /\ url a = "https://www.dailymirror.lk/a"
    /\ db w' = []
    /\ In (Print (LogScanError RequestError)) (trace w')
    /\ notifications (trace w') = [].
Proof.
  vm_compute. eexists. eexists.
  split; [reflexivity|]. split; [reflexivity|]. split; [reflexivity|].
  split; [|reflexivity].
  repeat (first [left; reflexivity | right]).
Qed.

(** C2, at a failing input.  A missing [pagemap], a missing [metatags] key
    and a first metatag without the key all give "Unknown"; an empty
    [metatags] array raises [IndexError], and a scan that meets such an item
    is rolled back as a whole. *)
Theorem empty_metatags_aborts_scan :
  (forall it, pagemap it = None -> publish_date_of it = Ok (JStr "Unknown"))
  /\ (forall it kvs, pagemap it = Some (JObj kvs) -> assoc "metatags" kvs = None ->
                     publish_date_of it = Ok (JStr "Unknown"))
  /\ (forall it kvs first rest,
         pagemap it = Some (JObj kvs) ->
         assoc "metatags" kvs = Some (JArr (JObj first :: rest)) ->
         assoc "article:published_time" first = None ->
         publish_date_of it = Ok (JStr "Unknown"))
  /\ (forall it kvs, pagemap it = Some (JObj kvs) ->
                     assoc "metatags" kvs = Some (JArr []) ->
                     publish_date_of it = Raise IndexError)
  /\ (exists a w',
         run_scan_and_save (env_of_api api_empty_metatags) 3 false empty_world
         = Some (Ok [a], w')
         /\ url a = "https://www.dailymirror.lk/a"
         /\ db w' = []
         /\ In (Print (LogScanError IndexError)) (trace w')).
Proof.
  split; [|split; [|split; [|split]]].
  - intros it H. unfold publish_date_of. now rewrite H.
  - intros it kvs H Hm. unfold publish_date_of. rewrite H. simpl. now rewrite Hm.
  - intros it kvs first rest H Hm Hk. unfold publish_date_of. rewrite H. simpl.
    rewrite Hm. simpl. now rewrite Hk.
  - intros it kvs H Hm. unfold publish_date_of. rewrite H. simpl. now rewrite Hm.
  - vm_compute. eexists. eexists.
    split; [reflexivity|]. split; [reflexivity|]. split; [reflexivity|].
    repeat (first [left; reflexivity | right]).
Qed.

(** C3, at a failing input.  With the same upstream results both times, a
    scan that fails (here on the empty [metatags] array of C2) is rolled
    back and returns the record it had found (the list of C1); the second
    scan finds nothing stored, fails in the same way and returns the same
    record again, not the empty list. *)
Theorem rescan_after_failure_not_empty :
  exists a w2,
    scan_twice (env_of_api api_empty_metatags) 3 false empty_world
    = Some (Ok ([a], [a]), w2)
    /\ url a = "https://www.dailymirror.lk/a"
    /\ db w2 = [].
Proof. vm_compute. eexists. eexists. repeat split. Qed.

(** A scan after a committed scan finds nothing new.  When a scan returns
    without having logged a scan error, a second scan against the same API
    (with either value of the flag) returns the empty list, logs no scan
    error and leaves the table as the first scan left it; the rows the first
    scan added have the returned records' columns and pairwise different
    URLs, none of them stored before. *)
Theorem rescan_finds_nothing_new (e : env) (fuel : nat) (b b' : bool) (w : world)
    (found : list PressArticle) (w1 : world) :
  run_scan_and_save e fuel b w = Some (Ok found, w1) ->
  scan_failed (events_since w w1) = false ->
  exists w2 rows,
    run_scan_and_save e fuel b' w1 = Some (Ok [], w2)
    /\ db w2 = db w1
    /\ scan_failed (events_since w1 w2) = false
    /\ db w2 = db w ++ rows
    /\ map art rows = found
    /\ NoDup (map row_url rows)
    /\ (forall u, In u (map row_url rows) -> ~ In u (map row_url (db w))).
Proof.
  intros Hrun Hok.
  destruct (run_scan_and_save_cases e fuel b w _ w1 Hrun)
    as (found' & evs & Hr & _ & _ & _ & Htr & Hcases).
  rewrite (events_since_app w w1 evs Htr) in Hok.
  destruct Hcases as [(rows & Hdb & Hart & Hnd & Hfresh & _ & Hknown & _) | (_ & Hfail & _)];
    [|congruence].
  injection Hr as <-.
  destruct (rescan_known e fuel b' w1 Hknown)
    as (w2 & evs2 & Hrun2 & Hdb2 & _ & Htr2 & Hok2 & _).
  exists w2, rows. split; [exact Hrun2|]. split; [exact Hdb2|].
  split; [now rewrite (events_since_app w1 w2 evs2 Htr2)|].
  split; [now rewrite Hdb2|]. now repeat split.
Qed.

(** An instance: the overlapping searches, scanned twice. *)
Lemma rescan_finds_nothing_new_witness :
  exists found w1 w2 rows,
    run_scan_and_save (env_of_api api_overlap) 3 true empty_world = Some (Ok found, w1)
    /\ run_scan_and_save (env_of_api api_overlap) 3 true w1 = Some (Ok [], w2)
    /\ db w2 = db w1
    /\ scan_failed (events_since w1 w2) = false
    /\ db w2 = db empty_world ++ rows
    /\ map art rows = found
    /\ NoDup (map row_url rows)
    /\ (forall u, In u (map row_url rows) -> ~ In u (map row_url (db empty_world))).
Proof.
  assert (H : exists found w1,
             run_scan_and_save (env_of_api api_overlap) 3 true empty_world
             = Some (Ok found, w1)
             /\ scan_failed (events_since empty_world w1) = false).
  { vm_compute. eexists. eexists. split; reflexivity. }
  destruct H as (found & w1 & Hrun & Hok).
  destruct (rescan_finds_nothing_new _ _ _ true _ _ _ Hrun Hok) as (w2 & rows & H2).
  exists found, w1, w2, rows. split; [exact Hrun | exact H2].
Defined.

(** The part of C1 that holds, for every input: a scan that logged a scan
    error (whether a search, an item, an INSERT of the sweep or the commit
    itself raised) has left the table as it was, has called no notifier and
    has made no SMTP exchange. *)
Theorem failed_scan_rolls_back (e : env) (fuel : nat) (b : bool) (w : world)
    (r : res (list PressArticle)) (w' : world) :
  run_scan_and_save e fuel b w = Some (r, w') ->
  scan_failed (events_since w w') = true ->
  db w' = db w
  /\ notifications (events_since w w') = []
  /\ smtp_calls (events_since w w') = [].
Proof.
  intros Hrun Hfail.
  destruct (run_scan_and_save_cases e fuel b w r w' Hrun)
    as (found & evs & Hr & _ & _ & _ & Htr & Hcases).
  rewrite (events_since_app w w' evs Htr) in *.
  destruct Hcases as [(rows & _ & _ & _ & _ & Hok & _) | (Hdb & _ & Hn & Hs & _)];
    [congruence|].
  now repeat split.
Qed.

(** An instance where the commit itself fails: the sweep is complete (every
    configured request was sent) and the last object found, whose
    publication time is a list that the driver cannot bind, is inserted by
    [session.commit()]. *)
Lemma failed_scan_rolls_back_witness :
  exists r w',
    run_scan_and_save (env_of_api api_list_date) 3 true empty_world = Some (r, w')
    /\ map fst (get_calls (events_since empty_world w')) = scan_queries
    /\ In (Print (LogScanError BindError)) (events_since empty_world w')
    /\ db w' = db empty_world
    /\ notifications (events_since empty_world w') = []
    /\ smtp_calls (events_since empty_world w') = [].
Proof.
  assert (H : exists r w',
             run_scan_and_save (env_of_api api_list_date) 3 true empty_world = Some (r, w')
             /\ scan_failed (events_since empty_world w') = true
             /\ map fst (get_calls (events_since empty_world w')) = scan_queries
             /\ In (Print (LogScanError BindError)) (events_since empty_world w')).
  { vm_compute. eexists. eexists. split; [reflexivity|]. split; [reflexivity|].
    split; [reflexivity|]. repeat (first [left; reflexivity | right]). }
  destruct H as (r & w' & Hrun & Hfail & Hgets & Herr). exists r, w'.
  split; [exact Hrun|]. split; [exact Hgets|]. split; [exact Herr|].
  exact (failed_scan_rolls_back _ _ _ _ _ _ Hrun Hfail).
Defined.

(** The objects of a failed commit are returned as they were built: both
    records, the second with its list, and nothing is stored or mailed. *)
Example commit_failure_returns_unsaved :
  exists a b w',
    run_scan_and_save (env_of_api api_list_date) 3 true empty_world = Some (Ok [a; b], w')
    /\ url a = "https://www.dailymirror.lk/a"
    /\ url b = "https://www.dailymirror.lk/b"
    /\ publish_date b = JArr [JStr "2024-12-01T10:00:00+05:30"]
    /\ db w' = []
    /\ notifications (trace w') = [].
Proof. vm_compute. eexists. eexists. eexists. repeat split. Qed.

(** A publication time that is a number is stored as a text, and the
    record that is mailed and returned shows the text. *)
Example number_date_is_stored_as_text :
  exists a w',
    run_scan_and_save (env_of_api api_number_date) 3 true empty_world = Some (Ok [a], w')
    /\ publish_date a = JStr "20241201"
    /\ map art (db w') = [a]
    /\ notifications (trace w') = [([a], MANUAL_SUBJECT)].
Proof. vm_compute. eexists. eexists. repeat split. Qed.

(** ** Daily job and manual trigger *)

Lemma daily_report_run (e : env) (w1 : world) :
  daily_report e w1 =
  Some (Ok tt,
        add_events
          (match order_by_created_at_desc
                   (filter (in_window (clock e (ticks w1) - ONE_DAY) (clock e (ticks w1)))
                      (db w1)) with
           | [] => [Print LogNoRecent]
           | r :: rest => email_events e (map art (r :: rest)) DAILY_SUBJECT
           end)
          (mkWorld (db w1) [] [] (new_articles w1) (S (ticks w1)) (trace w1))).
Proof.
  unfold daily_report, SessionLocal, query_recent, session_flush, utcnow, finally,
    session_close, bind, modify, get.
  cbn [pending txn db ticks set_pending set_txn set_ticks for_each ret].
  rewrite app_nil_r.
  destruct (order_by_created_at_desc _) as [|r rest].
  - reflexivity.
  - rewrite send_email_eq. reflexivity.
Qed.

(** C5 as stated fails on the subject line: on a day with rows made 30, 23
    and 1 hours ago the job mails the two rows of the last 24 hours, newest
    first, and the subject it uses is longer than the one stated. *)
Lemma daily_subject_has_prefix :
  exists w2,
    daily_job env_quiet_day 1 world_three_rows = Some (Ok tt, w2)
    /\ notifications (trace w2) =
       [([stored_article "https://www.ft.lk/fresh";
          stored_article "https://www.ft.lk/yesterday"],
         "Cargills Press Monitoring – Daily Report (Last 24 hours)")]
    /\ "Cargills Press Monitoring – Daily Report (Last 24 hours)"
       <> "Daily Report (Last 24 hours)".
Proof.
  vm_compute. eexists. split; [reflexivity|]. split; [reflexivity | discriminate].
Qed.

(** C5, as the code has it.  When the scan's loops end, the daily job ends
    normally.  Its scan calls no notifier and makes no SMTP exchange.  The
    records it then selects are exactly the stored rows with
    [now - 1 day <= created_at <= now], where [now] is the clock reading
    taken after the scan, ordered by [created_at], newest first.  When there
    is such a row, [send_email] is called once, with these records and the
    subject "Cargills Press Monitoring – Daily Report (Last 24 hours)";
    when there is none, the job only prints a line. *)
Theorem daily_job_window (e : env) (fuel : nat) (w : world) :
  run_scan_and_save e fuel false w <> None ->
  exists found w1 w2 recent,
    run_scan_and_save e fuel false w = Some (Ok found, w1)
    /\ daily_job e fuel w = Some (Ok tt, w2)
    /\ notifications (events_since w w1) = []
    /\ smtp_calls (events_since w w1) = []
    /\ Permutation recent
         (filter (in_window (clock e (ticks w1) - ONE_DAY) (clock e (ticks w1))) (db w1))
    /\ (forall r, In r recent <->
                  In r (db w1)
                  /\ (clock e (ticks w1) - ONE_DAY <= created_at r <= clock e (ticks w1))%Z)
    /\ StronglySorted (fun r1 r2 => (created_at r2 <= created_at r1)%Z) recent
    /\ notifications (events_since w1 w2) =
       match recent with
       | [] => []
       | _ :: _ =>
           [(map art recent, "Cargills Press Monitoring – Daily Report (Last 24 hours)")]
       end
    /\ (recent = [] -> events_since w1 w2 = [Print LogNoRecent])
    /\ db w2 = db w1.
Proof.
  intros Hterm.
  destruct (run_scan_and_save e fuel false w) as [[r w1]|] eqn:Hrun; [|congruence].
  destruct (run_scan_and_save_cases e fuel false w r w1 Hrun)
    as (found & evs & Hr & _ & _ & _ & Htr & Hcases).
  subst r.
  set (now := clock e (ticks w1)).
  set (recent := order_by_created_at_desc
                   (filter (in_window (now - ONE_DAY) now) (db w1))).
  pose proof (daily_report_run e w1) as Hrep. fold now in Hrep. fold recent in Hrep.
  eexists found, w1, _, recent.
  split; [reflexivity|]. split.
  { unfold daily_job. rewrite bind_run, Hrun. exact Hrep. }
  rewrite (events_since_app w w1 evs Htr).
  assert (Hquiet : notifications evs = [] /\ smtp_calls evs = []).
  { destruct Hcases as [(rows & _ & _ & _ & _ & _ & _ & Hn & Hs) | (_ & _ & Hn & Hs & _)].
    - split; [|now apply Hs]. rewrite Hn. now destruct found.
    - now split. }
  destruct Hquiet as [Hn Hs].
  split; [exact Hn|]. split; [exact Hs|].
  split; [apply Permutation_sym, order_by_perm|].
  split.
  { intros r. unfold recent.
    rewrite <- in_window_iff, <- filter_In. split; intros H.
    - exact (Permutation_in _ (Permutation_sym (order_by_perm _)) H).
    - exact (Permutation_in _ (order_by_perm _) H). }
  split; [apply order_by_sorted|].
  assert (Hev : events_since w1
                  (add_events
                     (match recent with
                      | [] => [Print LogNoRecent]
                      | r :: rest => email_events e (map art (r :: rest)) DAILY_SUBJECT
                      end)
                     (mkWorld (db w1) [] [] (new_articles w1) (S (ticks w1)) (trace w1)))
                = match recent with
                  | [] => [Print LogNoRecent]
                  | r :: rest => email_events e (map art (r :: rest)) DAILY_SUBJECT
                  end).
  { apply events_since_app. reflexivity. }
  rewrite Hev. split; [|split; [|reflexivity]].
  - destruct recent; [reflexivity | apply email_events_notifications].
  - now intros ->.
Qed.

(** C5, an instance: the quiet day with the three stored rows. *)
Lemma daily_job_window_witness :
  exists found w1 w2 recent,
    run_scan_and_save env_quiet_day 1 false world_three_rows = Some (Ok found, w1)
    /\ daily_job env_quiet_day 1 world_three_rows = Some (Ok tt, w2)
    /\ map row_url recent = ["https://www.ft.lk/fresh"; "https://www.ft.lk/yesterday"]
    /\ notifications (events_since w1 w2) =
       [(map art recent, "Cargills Press Monitoring – Daily Report (Last 24 hours)")].
Proof.
  assert (Hterm : run_scan_and_save env_quiet_day 1 false world_three_rows <> None)
    by (vm_compute; discriminate).
  destruct (daily_job_window env_quiet_day 1 world_three_rows Hterm)
    as (found & w1 & w2 & recent & Hrun & Hjob & _ & _ & Hperm & Hin & Hsorted & Hnot & _).
  exists found, w1, w2, recent.
  split; [exact Hrun|]. split; [exact Hjob|].
  assert (Hw1 : db w1 = db world_three_rows /\ ticks w1 = 0).
  { revert Hrun. vm_compute. intros H. injection H as _ <-. now split. }
  destruct Hw1 as [Hdb Hticks].
  rewrite Hdb, Hticks in Hperm, Hin.
  assert (Hrecent : recent =
            [ mkRow (stored_article "https://www.ft.lk/fresh") (99 * HOUR);
              mkRow (stored_article "https://www.ft.lk/yesterday") (77 * HOUR) ]).
  { change (filter _ _) with
      [ mkRow (stored_article "https://www.ft.lk/yesterday") (77 * HOUR);
        mkRow (stored_article "https://www.ft.lk/fresh") (99 * HOUR) ] in Hperm.
    apply Permutation_sym, Permutation_length_2_inv in Hperm as [Hp|Hp]; subst recent.
    - exfalso. inversion Hsorted as [|? ? _ Hall]; subst.
      inversion Hall as [|? ? Hle _]; subst. vm_compute in Hle. now apply Hle.
    - reflexivity. }
  split; [now rewrite Hrecent|]. now rewrite Hnot, Hrecent.
Defined.

(** C6 as stated fails on the subject line: the manual trigger calls the
    notifier with the batch it inserted, under a subject longer than the
    one stated. *)
Lemma manual_subject_has_prefix :
  exists found listing w2,
    run_scan (env_of_api api_overlap) 3 empty_world = Some (Ok (found, listing), w2)
    /\ map art (db w2) = found
    /\ notifications (trace w2) = [(found, "Cargills Press Monitoring – Manual Trigger")]
    /\ "Cargills Press Monitoring – Manual Trigger" <> "Manual Trigger".
Proof.
  vm_compute. eexists. eexists. eexists.
  split; [reflexivity|]. split; [reflexivity|]. split; [reflexivity | discriminate].
Qed.

(** C6, as the code has it.  When the scan's loops end, the manual trigger
    ends normally, having run the scan with the flag set.  [send_email] is
    called during it exactly when the scan added rows to the table, and then
    once, with the records of exactly these rows (the columns as the table
    holds them, which are the records the scan returns) and the subject
    "Cargills Press Monitoring – Manual Trigger"; no window query is
    involved.  A scan that logged a scan error, be it at the commit, has
    added no row, so that the notifier is not called for a batch that is not
    in the table.  The listing handed to the page is the table, newest row
    first. *)
Theorem run_scan_notifies_inserted_batch (e : env) (fuel : nat) (w : world) :
  run_scan_and_save e fuel true w <> None ->
  exists found listing w' rows,
    run_scan e fuel w = Some (Ok (found, listing), w')
    /\ run_scan_and_save e fuel true w = Some (Ok found, w')
    /\ db w' = db w ++ rows
    /\ notifications (events_since w w') =
       match rows with
       | [] => []
       | _ :: _ => [(map art rows, "Cargills Press Monitoring – Manual Trigger")]
       end
    /\ (rows <> [] -> found = map art rows)
    /\ (scan_failed (events_since w w') = false -> found = map art rows)
    /\ (scan_failed (events_since w w') = true -> rows = [])
    /\ listing = rev (db w').
Proof.
  intros Hterm.
  destruct (run_scan_and_save e fuel true w) as [[r w1]|] eqn:Hrun; [|congruence].
  destruct (run_scan_and_save_cases e fuel true w r w1 Hrun)
    as (found & evs & Hr & Hnew & Htxn & Hpend & Htr & Hcases).
  subst r.
  assert (Hroute : run_scan e fuel w = Some (Ok (found, rev (db w1)), w1)).
  { unfold run_scan. rewrite bind_run, Hrun.
    unfold SessionLocal, query_all_by_id_desc, session_flush, finally, session_close,
      bind, modify, get, ret.
    cbn [pending txn db set_pending set_txn for_each ret].
    unfold ret. rewrite app_nil_r.
    f_equal. f_equal. clear - Htxn Hpend.
    destruct w1; simpl in *. now subst. }
  destruct Hcases as [(rows & Hdb & Hart & _ & _ & Hok & _ & Hn & _)
                     | (Hdb & Hfail & Hn & _)].
  - exists found, (rev (db w1)), w1, rows.
    split; [exact Hroute|]. split; [reflexivity|]. split; [exact Hdb|].
    rewrite (events_since_app w w1 evs Htr), Hn, <- Hart.
    split; [now destruct rows|]. split; [reflexivity|]. split; [reflexivity|].
    split; [congruence | reflexivity].
  - exists found, (rev (db w1)), w1, [].
    split; [exact Hroute|]. split; [reflexivity|].
    split; [now rewrite app_nil_r|].
    rewrite (events_since_app w w1 evs Htr), Hn.
    split; [reflexivity|]. split; [congruence|]. split; [congruence|].
    split; reflexivity.
Qed.

(** C6, an instance: the overlapping searches on an empty table. *)
Lemma run_scan_notifies_inserted_batch_witness :
  exists found listing w' rows,
    run_scan (env_of_api api_overlap) 3 empty_world = Some (Ok (found, listing), w')
    /\ db w' = db empty_world ++ rows
    /\ notifications (events_since empty_world w') =
       match rows with
       | [] => []
       | _ :: _ => [(map art rows, "Cargills Press Monitoring – Manual Trigger")]
       end.
Proof.
  assert (Hterm : run_scan_and_save (env_of_api api_overlap) 3 true empty_world <> None)
    by (vm_compute; discriminate).
  destruct (run_scan_notifies_inserted_batch _ _ _ Hterm)
    as (found & listing & w' & rows & Hroute & _ & Hdb & Hn & _).
  exists found, listing, w', rows. now repeat split.
Defined.

(** The manual trigger when the commit fails: the route gets the two
    records the scan had built, the table is empty and the notifier was not
    called. *)
Example manual_trigger_commit_failure :
  exists found w',
    run_scan (env_of_api api_list_date) 3 empty_world = Some (Ok (found, []), w')
    /\ List.length found = 2
    /\ db w' = []
    /\ In (Print (LogScanError BindError)) (trace w')
    /\ notifications (trace w') = [].
Proof.
  vm_compute. eexists. eexists. split; [reflexivity|]. split; [reflexivity|].
  split; [reflexivity|]. split; [|reflexivity].
  repeat (first [left; reflexivity | right]).
Qed.

(** C4, an instance: an API that serves pages of 10, 10 and 7 results. *)
Lemma google_search_pagination_witness :
  exists items w',
    google_search (env_of_api api_three_pages) 3 (quoted "cargills") "ft.lk" empty_world
    = Some (Ok items, w')
    /\ List.length items = 27
    /\ get_calls (events_since empty_world w') =
       [(search_q (quoted "cargills") "ft.lk", 1%Z);
        (search_q (quoted "cargills") "ft.lk", 11%Z);
        (search_q (quoted "cargills") "ft.lk", 21%Z)].
Proof.
  destruct (proj1 (proj2 google_search_pagination)
              (env_of_api api_three_pages) 3 (quoted "cargills") "ft.lk"
              (repeat (plain_item "https://www.ft.lk/1") 10)
              (repeat (plain_item "https://www.ft.lk/2") 10)
              (repeat (plain_item "https://www.ft.lk/3") 7)
              empty_world eq_refl eq_refl eq_refl eq_refl eq_refl eq_refl (le_n 3))
    as (items & w' & Hrun & _ & Hlen & Hcalls).
  exists items, w'. now repeat split.
Defined.

(** The first reply has no [items] key: one request, no items. *)
Example empty_first_page :
  exists w',
    google_search (env_of_api api_nothing) 1 (quoted "cargills") "ft.lk" empty_world
    = Some (Ok [], w')
    /\ get_calls (trace w') = [(search_q (quoted "cargills") "ft.lk", 1%Z)].
Proof. vm_compute. eexists. split; reflexivity. Qed.

(** * Further properties *)

(** ** Classifier on the configured domains *)

(** Coverage.  For every configured pair and every path, the URL of that
    domain, with or without "www.", gets the pair's display name, and its
    language is "Sinhala" exactly when the key is in [SINHALA_DOMAINS]: no
    key is shadowed by an earlier one. *)
Theorem configured_domains_classified (l : pylib) (key name path : string) :
  In (key, name) NEWS_MAP ->
  get_newspaper_name l ("https://www." ++ key ++ "/" ++ path)%string = Ok name
  /\ get_newspaper_name l ("https://" ++ key ++ "/" ++ path)%string = Ok name
  /\ get_language l ("https://www." ++ key ++ "/" ++ path)%string
     = Ok (if existsb (String.eqb key) SINHALA_DOMAINS then "Sinhala" else "English")
  /\ get_language l ("https://" ++ key ++ "/" ++ path)%string
     = Ok (if existsb (String.eqb key) SINHALA_DOMAINS then "Sinhala" else "English").
Proof.
  intros Hin. unfold NEWS_MAP in Hin. simpl in Hin.
  repeat (destruct Hin as [Hin|Hin];
          [injection Hin as <- <-; repeat split; reflexivity|]).
  destruct Hin.
Qed.

Lemma configured_domains_classified_witness :
  get_newspaper_name plain_lib "https://www.lankadeepa.lk/news/1" = Ok "Lanka Deepa"
  /\ get_language plain_lib "https://www.lankadeepa.lk/news/1" = Ok "Sinhala".
Proof.
  destruct (configured_domains_classified plain_lib "lankadeepa.lk" "Lanka Deepa" "news/1")
    as (H1 & _ & H2 & _).
  - unfold NEWS_MAP. do 8 right. now left.
  - split; [exact H1 | exact H2].
Defined.

(** A link with no network location (no "//" after an optional scheme, as
    in "www.ft.lk/news") is "Unknown" and "English", whatever domain its
    text names. *)
Theorem no_netloc_is_unknown (l : pylib) (url : string) :
  urlparse_netloc l url = Ok EmptyString ->
  get_newspaper_name l url = Ok "Unknown" /\ get_language l url = Ok "English".
Proof.
  intros H. unfold get_newspaper_name, get_language, domain_of. rewrite H.
  split; reflexivity.
Qed.

Lemma no_netloc_is_unknown_witness :
  get_newspaper_name plain_lib "www.ft.lk/news" = Ok "Unknown"
  /\ get_language plain_lib "www.ft.lk/news" = Ok "English".
Proof. apply (no_netloc_is_unknown plain_lib "www.ft.lk/news"). reflexivity. Defined.

(** ** Metadata of a result *)

(** [publish_date] can be read exactly when [pagemap] is absent, or is an
    object whose [metatags] is absent or is an array that starts with an
    object; the value is then that object's "article:published_time", or
    "Unknown" where a level is missing.  Every other shape raises. *)
Theorem publish_date_of_shapes (it : item) :
  (forall v, publish_date_of it = Ok v <->
     (pagemap it = None /\ v = JStr "Unknown")
     \/ exists kvs,
         pagemap it = Some (JObj kvs)
         /\ ((assoc "metatags" kvs = None /\ v = JStr "Unknown")
             \/ exists first rest,
                 assoc "metatags" kvs = Some (JArr (JObj first :: rest))
                 /\ v = match assoc "article:published_time" first with
                        | Some x => x
                        | None => JStr "Unknown"
                        end)).
Proof.
  intros v. unfold publish_date_of.
  destruct (pagemap it) as [pm|]; simpl.
  2:{ split.
      - intros H. injection H as <-. left. now split.
      - intros [[_ ->] | (kvs & Hk & _)]; [reflexivity | discriminate]. }
  destruct pm as [| b | n | s | l | kvs]; simpl;
    try (split; [discriminate | intros [[Hk _] | (kvs' & Hk & _)]; discriminate]).
  destruct (assoc "metatags" kvs) as [m|] eqn:Hm; simpl.
  2:{ split.
      - intros H. injection H as <-. right. exists kvs. split; [reflexivity|].
        left. now split.
      - intros [[Hk _] | (kvs' & Hk & [[_ ->] | (first & rest & Hm' & _)])];
          [discriminate | reflexivity |].
        injection Hk as <-. congruence. }
  destruct m as [| b | n | s | l | mk]; simpl.
  all: try (split; [discriminate |
              intros [[Hk _] | (kvs' & Hk & [[Hn _] | (first & rest & Hm' & _)])];
              [discriminate | injection Hk as <-; congruence
               | injection Hk as <-; congruence]]).
  - destruct s as [|c s]; simpl;
      (split; [discriminate |
              intros [[Hk _] | (kvs' & Hk & [[Hn _] | (first & rest & Hm' & _)])];
              [discriminate | injection Hk as <-; congruence
               | injection Hk as <-; congruence]]).
  - destruct l as [|x l]; simpl.
    + split; [discriminate |
              intros [[Hk _] | (kvs' & Hk & [[Hn _] | (first & rest & Hm' & _)])];
              [discriminate | injection Hk as <-; congruence
               | injection Hk as <-; congruence]].
    + destruct x as [| b | n | s | l' | first]; simpl;
        try (split; [discriminate |
              intros [[Hk _] | (kvs' & Hk & [[Hn _] | (first' & rest & Hm' & _)])];
              [discriminate | injection Hk as <-; congruence
               | injection Hk as <-; congruence]]).
      split.
      * intros H. injection H as <-. right. exists kvs. split; [reflexivity|].
        right. exists first, l. now split.
      * intros [[Hk _] | (kvs' & Hk & [[Hn _] | (first' & rest & Hm' & ->)])];
          [discriminate | injection Hk as <-; congruence |].
        injection Hk as <-. rewrite Hm in Hm'. injection Hm' as <- <-. reflexivity.
Qed.

(** ** Search aggregator: failure, endless pages, shape of the requests *)

Lemma offsets_shift (start : Z) (m : nat) :
  map (fun k => (start + 10 * Z.of_nat k)%Z) (seq 0 (S m)) =
  start :: map (fun k => (start + 10 + 10 * Z.of_nat k)%Z) (seq 0 m).
Proof.
  change (seq 0 (S m)) with (0 :: seq 1 m). rewrite <- seq_shift.
  rewrite map_cons, map_map. f_equal; [lia|].
  apply map_ext. intros k. lia.
Qed.

Lemma pages_from_fail (e : env) (q : string) (x : exn) :
  forall (full : list (list item)) (fuel : nat) (start : Z) (results : list item),
    (forall k p, nth_error full k = Some p ->
                 api e q (start + 10 * Z.of_nat k)%Z = ApiPage (Some p)
                 /\ 10 <= List.length p) ->
    api e q (start + 10 * Z.of_nat (List.length full))%Z = ApiFail x ->
    List.length full < fuel ->
    pages_from e fuel q start results =
    Some (Raise x,
          map (fun k => (start + 10 * Z.of_nat k)%Z) (seq 0 (S (List.length full)))).
Proof.
  induction full as [|p full IH]; intros fuel start results Hfull Hlast Hfuel.
  - destruct fuel as [|fuel]; [lia|]. simpl in *.
    rewrite Z.add_0_r in *. now rewrite Hlast.
  - destruct fuel as [|fuel]; [simpl in Hfuel; lia|].
    destruct (Hfull 0 p eq_refl) as [Hp Hlen].
    simpl in Hp. rewrite Z.add_0_r in Hp.
    cbn [pages_from]. rewrite Hp.
    destruct (Z.ltb_spec (Z.of_nat (Datatypes.length p)) 10); [lia|].
    rewrite (IH fuel (start + 10)%Z (results ++ p)).
    + replace (Datatypes.length (p :: full)) with (S (Datatypes.length full))
        by reflexivity.
      now rewrite (offsets_shift start (S (Datatypes.length full))).
    + intros k p' Hk. destruct (Hfull (S k) p' Hk) as [Ha Hb].
      split; [|exact Hb]. rewrite <- Ha. f_equal. lia.
    + rewrite <- Hlast. f_equal. simpl Datatypes.length. lia.
    + simpl in Hfuel. lia.
Qed.

(** A request that raises ends the search with that exception: the pages
    fetched before it are not returned, and no further request is made. *)
Theorem google_search_failure_loses_pages (e : env) (fuel : nat) (query site : string)
    (full : list (list item)) (x : exn) (w : world) :
  (forall k p, nth_error full k = Some p ->
               api e (search_q query site) (1 + 10 * Z.of_nat k)%Z = ApiPage (Some p)
               /\ 10 <= List.length p) ->
  api e (search_q query site) (1 + 10 * Z.of_nat (List.length full))%Z = ApiFail x ->
  List.length full < fuel ->
  google_search e fuel query site w =
  Some (Raise x,
        add_events (map (Get (search_q query site)) (starts_of (S (List.length full)))) w).
Proof.
  intros Hfull Hlast Hfuel. rewrite google_search_eq.
  now rewrite (pages_from_fail e _ x full fuel 1%Z [] Hfull Hlast Hfuel).
Qed.

Lemma google_search_failure_loses_pages_witness :
  google_search (env_of_api api_fail_third) 5 (quoted "cargills") "ft.lk" empty_world =
  Some (Raise RequestError,
        add_events (map (Get (search_q (quoted "cargills") "ft.lk")) [1; 11; 21]%Z)
          empty_world).
Proof.
  apply (google_search_failure_loses_pages (env_of_api api_fail_third) 5
           (quoted "cargills") "ft.lk"
           [repeat (plain_item "https://www.ft.lk/1") 10;
            repeat (plain_item "https://www.ft.lk/2") 10]).
  - intros [|[|k]] p Hk; simpl in Hk; inversion Hk; subst.
    + split; [reflexivity | simpl; lia].
    + split; [reflexivity | simpl; lia].
    + destruct k; discriminate.
  - reflexivity.
  - simpl. lia.
Defined.

Lemma pages_from_endless (e : env) (q : string) :
  (forall start, exists items,
      api e q start = ApiPage (Some items) /\ 10 <= List.length items) ->
  forall (fuel : nat) (start : Z) (results : list item),
    pages_from e fuel q start results = None.
Proof.
  intros Hfull. induction fuel as [|fuel IH]; intros start results; [reflexivity|].
  cbn [pages_from]. destruct (Hfull start) as (items & Hp & Hlen). rewrite Hp.
  destruct (Z.ltb_spec (Z.of_nat (Datatypes.length items)) 10); [lia|].
  now rewrite IH.
Qed.

(** The loop has no cap of its own: against an API whose every page holds
    ten items or more, no number of requests ends the search. *)
Theorem google_search_needs_a_short_page (e : env) (query site : string) :
  (forall start, exists items,
      api e (search_q query site) start = ApiPage (Some items)
      /\ 10 <= List.length items) ->
  forall (fuel : nat) (w : world), google_search e fuel query site w = None.
Proof.
  intros Hfull fuel w. rewrite google_search_eq.
  now rewrite (pages_from_endless e _ Hfull).
Qed.

Lemma google_search_needs_a_short_page_witness :
  google_search (env_of_api api_always_full) 1000 (quoted "cargills") "ft.lk" empty_world
  = None.
Proof.
  apply (google_search_needs_a_short_page (env_of_api api_always_full)).
  intros start. eexists. split; [reflexivity|]. simpl. lia.
Defined.

Lemma pages_from_shape (e : env) (q : string) :
  forall (fuel : nat) (start : Z) (results : list item) (r : res (list item))
         (starts : list Z),
    pages_from e fuel q start results = Some (r, starts) ->
    starts = map (fun k => (start + 10 * Z.of_nat k)%Z) (seq 0 (List.length starts))
    /\ 1 <= List.length starts <= fuel
    /\ forall items, r = Ok items ->
         (exists more, items = results ++ more
                       /\ 10 * (List.length starts - 1) <= List.length more).
Proof.
  induction fuel as [|fuel IH]; intros start results r starts H; [discriminate|].
  cbn [pages_from] in H.
  destruct (api e q start) as [x | [items|]].
  - injection H as <- <-. simpl. rewrite Z.add_0_r.
    repeat split; try lia. discriminate.
  - destruct (Z.ltb_spec (Z.of_nat (Datatypes.length items)) 10).
    + injection H as <- <-. simpl. rewrite Z.add_0_r.
      repeat split; try lia. intros its Hits. injection Hits as <-.
      exists items. split; [reflexivity | simpl; lia].
    + destruct (pages_from e fuel q (start + 10) (results ++ items))
        as [[r' starts']|] eqn:Hrec; [|discriminate].
      injection H as <- <-.
      destruct (IH _ _ _ _ Hrec) as (Hst & Hlen & Hitems).
      split; [|split].
      * cbn [Datatypes.length]. rewrite offsets_shift. f_equal. exact Hst.
      * simpl. lia.
      * intros its Hits. destruct (Hitems its Hits) as (more & Hmore & Hlen').
        exists (items ++ more). split; [now rewrite Hmore, app_assoc|].
        rewrite length_app. cbn [Datatypes.length]. lia.
  - injection H as <- <-. simpl. rewrite Z.add_0_r.
    repeat split; try lia. intros its Hits. injection Hits as <-.
    exists []. split; [now rewrite app_nil_r | simpl; lia].
Qed.

(** Whatever the API answers, a search that ends (normally or by an
    exception) has made between one and [fuel] requests, at the offsets
    1, 11, 21, ... without a gap, has changed nothing in the state except the
    trace, and, when it ends normally after [n] requests, returns at least
    [10 * (n - 1)] items. *)
Theorem google_search_requests_shape (e : env) (fuel : nat) (query site : string)
    (w : world) (r : res (list item)) (w' : world) :
  google_search e fuel query site w = Some (r, w') ->
  exists n,
    1 <= n <= fuel
    /\ w' = add_events (map (Get (search_q query site)) (starts_of n)) w
    /\ forall items, r = Ok items -> 10 * (n - 1) <= List.length items.
Proof.
  rewrite google_search_eq.
  destruct (pages_from e fuel (search_q query site) 1 []) as [[r' starts]|] eqn:Hp;
    [|discriminate].
  intros H. injection H as <- <-.
  destruct (pages_from_shape e _ _ _ _ _ _ Hp) as (Hst & Hlen & Hitems).
  exists (Datatypes.length starts). split; [exact Hlen|]. split.
  - unfold starts_of. now rewrite <- Hst.
  - intros items Hr. destruct (Hitems items Hr) as (more & -> & Hmore). exact Hmore.
Qed.

Lemma google_search_requests_shape_witness :
  exists r w' n,
    google_search (env_of_api api_three_pages) 5 (quoted "cargills") "ft.lk" empty_world
    = Some (r, w')
    /\ 1 <= n <= 5
    /\ w' = add_events (map (Get (search_q (quoted "cargills") "ft.lk")) (starts_of n))
              empty_world.
Proof.
  destruct (google_search (env_of_api api_three_pages) 5 (quoted "cargills") "ft.lk"
              empty_world) as [[r w']|] eqn:Hrun.
  - destruct (google_search_requests_shape _ _ _ _ _ _ _ Hrun) as (n & Hn & Hw & _).
    exists r, w', n. split; [reflexivity|]. split; [exact Hn | exact Hw].
  - exfalso. vm_compute in Hrun. discriminate.
Defined.

(** ** Digest notifier: the message *)

(** With both credentials set and a list that is not empty, [send_email]
    makes exactly one SMTP exchange.  Its message has the given subject, goes
    from [EMAIL_USER] to [EMAIL_USER], and has one table row per record, in
    the order of the list; a row shows the record's publish date, or
    "Unknown" when that value is false for Python (null, empty). *)
Theorem send_email_message (e : env) (articles : list PressArticle) (subject : string)
    (w : world) (user pass : string) :
  EMAIL_USER e = Some user -> user <> EmptyString ->
  EMAIL_PASS e = Some pass -> pass <> EmptyString ->
  articles <> [] ->
  exists w' msg,
    send_email e articles subject w = Some (Ok tt, w')
    /\ smtp_calls (events_since w w') = [msg]
    /\ Subject msg = subject /\ From msg = user /\ To msg = user
    /\ map td_url (rows msg) = map url articles
    /\ map td_title (rows msg) = map title articles
    /\ map td_pub (rows msg)
       = map (fun a => if truthy (publish_date a) then publish_date a else JStr "Unknown")
           articles
    /\ Forall (fun row => truthy (td_pub row) = true) (rows msg).
Proof.
  intros Hu Hune Hp Hpne Hne.
  rewrite send_email_eq. eexists. eexists. split; [reflexivity|].
  rewrite events_since_add. unfold email_events. rewrite Hu, Hp. simpl.
  apply String.eqb_neq in Hune, Hpne. rewrite Hune, Hpne. simpl.
  destruct articles as [|a rest]; [congruence|]. cbv zeta.
  split; [reflexivity|]. simpl.
  repeat split.
  - f_equal. rewrite map_map. reflexivity.
  - f_equal. rewrite map_map. reflexivity.
  - f_equal. rewrite map_map. reflexivity.
  - constructor.
    + simpl. destruct (truthy (publish_date a)) eqn:Ht; [exact Ht | reflexivity].
    + apply Forall_forall. intros row Hrow. apply in_map_iff in Hrow as (a' & <- & _).
      simpl. destruct (truthy (publish_date a')) eqn:Ht; [exact Ht | reflexivity].
Qed.

Lemma send_email_message_witness :
  exists w' msg,
    send_email (env_of_api api_nothing) [stored_article "https://www.ft.lk/x"]
      "Subject line" empty_world = Some (Ok tt, w')
    /\ smtp_calls (events_since empty_world w') = [msg]
    /\ Subject msg = "Subject line"
    /\ From msg = "bot@example.com" /\ To msg = "bot@example.com".
Proof.
  destruct (send_email_message (env_of_api api_nothing)
              [stored_article "https://www.ft.lk/x"] "Subject line" empty_world
              "bot@example.com" "secret" eq_refl)
    as (w' & msg & Hrun & Hcalls & Hs & Hf & Ht & _);
    try discriminate; try reflexivity.
  exists w', msg. now repeat split.
Defined.

(** ** The scan and the table *)

(** A scan called without the flag (as the daily job calls it) calls no
    notifier and makes no SMTP exchange, whether it commits or fails. *)
Theorem silent_scan_sends_nothing (e : env) (fuel : nat) (w : world)
    (r : res (list PressArticle)) (w' : world) :
  run_scan_and_save e fuel false w = Some (r, w') ->
  notifications (events_since w w') = [] /\ smtp_calls (events_since w w') = [].
Proof.
  intros Hrun.
  destruct (run_scan_and_save_cases e fuel false w r w' Hrun)
    as (found & evs & _ & _ & _ & _ & Htr & Hcases).
  rewrite (events_since_app w w' evs Htr).
  destruct Hcases as [(rows & _ & _ & _ & _ & _ & _ & Hn & Hs) | (_ & _ & Hn & Hs & _)].
  - split; [|now apply Hs]. rewrite Hn. now destruct found.
  - now split.
Qed.

Lemma silent_scan_sends_nothing_witness :
  exists r w',
    run_scan_and_save (env_of_api api_overlap) 3 false empty_world = Some (r, w')
    /\ notifications (events_since empty_world w') = []
    /\ smtp_calls (events_since empty_world w') = [].
Proof.
  destruct (run_scan_and_save (env_of_api api_overlap) 3 false empty_world)
    as [[r w']|] eqn:Hrun.
  - exists r, w'. split; [reflexivity|].
    exact (silent_scan_sends_nothing _ _ _ _ _ Hrun).
  - exfalso. vm_compute in Hrun. discriminate.
Defined.

Lemma NoDup_urls_app (old rows : list row) :
  NoDup (map row_url old) -> NoDup (map row_url rows) ->
  (forall u, In u (map row_url rows) -> ~ In u (map row_url old)) ->
  NoDup (map row_url (old ++ rows)).
Proof.
  intros Hold Hrows Hfresh. rewrite map_app. apply NoDup_app; [exact Hold | exact Hrows |].
  intros u Hu Hr. exact (Hfresh u Hr Hu).
Qed.

(** The three entry points only ever append to the table: the rows that
    were stored stay as they are, in place, and when the stored URLs were
    pairwise different they still are afterwards.  This holds for a scan, for
    the daily job and for the manual trigger, whatever the API, the SMTP
    server and the clock do. *)
Theorem table_only_grows_urls_stay_unique :
  (forall e fuel b w r w',
      run_scan_and_save e fuel b w = Some (r, w') ->
      exists rows, db w' = db w ++ rows
                   /\ (NoDup (map row_url (db w)) -> NoDup (map row_url (db w'))))
  /\ (forall e fuel w r w',
      daily_job e fuel w = Some (r, w') ->
      exists rows, db w' = db w ++ rows
                   /\ (NoDup (map row_url (db w)) -> NoDup (map row_url (db w'))))
  /\ (forall e fuel w r w',
      run_scan e fuel w = Some (r, w') ->
      exists rows, db w' = db w ++ rows
                   /\ (NoDup (map row_url (db w)) -> NoDup (map row_url (db w')))).
Proof.
  assert (Scan : forall e fuel b w r w',
      run_scan_and_save e fuel b w = Some (r, w') ->
      exists rows, db w' = db w ++ rows
                   /\ (NoDup (map row_url (db w)) -> NoDup (map row_url (db w')))).
  { intros e fuel b w r w' Hrun.
    destruct (run_scan_and_save_cases e fuel b w r w' Hrun)
      as (found & evs & _ & _ & _ & _ & _ & Hcases).
    destruct Hcases as [(rows & Hdb & _ & Hnd & Hfresh & _) | (Hdb & _)].
    - exists rows. split; [exact Hdb|]. intros Hold. rewrite Hdb.
      now apply NoDup_urls_app.
    - exists []. split; [now rewrite app_nil_r | now rewrite Hdb]. }
  split; [exact Scan|]. split.
  - intros e fuel w r w' Hjob. unfold daily_job in Hjob. rewrite bind_run in Hjob.
    destruct (run_scan_and_save e fuel false w) as [[[found|x] w1]|] eqn:Hrun;
      [| |discriminate].
    + rewrite daily_report_run in Hjob. injection Hjob as _ <-.
      exact (Scan _ _ _ _ _ _ Hrun).
    + injection Hjob as _ <-. exact (Scan _ _ _ _ _ _ Hrun).
  - intros e fuel w r w' Hroute. unfold run_scan in Hroute. rewrite bind_run in Hroute.
    destruct (run_scan_and_save e fuel true w) as [[[found|x] w1]|] eqn:Hrun;
      [| |discriminate].
    + revert Hroute.
      unfold SessionLocal, query_all_by_id_desc, session_flush, finally, session_close,
        bind, modify, get, ret.
      cbn [pending txn db set_pending set_txn for_each ret]. unfold ret.
      intros Hroute. injection Hroute as _ <-.
      exact (Scan _ _ _ _ _ _ Hrun).
    + injection Hroute as _ <-. exact (Scan _ _ _ _ _ _ Hrun).
Qed.

(** ** The scan does not depend on the mail side *)

Lemma for_each_ext {A} (l : list A) (body body' : A -> M unit) :
  (forall x w, In x l -> body x w = body' x w) ->
  forall w, for_each l body w = for_each l body' w.
Proof.
  induction l as [|x l IH]; intros Hb w; [reflexivity|].
  cbn [for_each]. rewrite !bind_run, (Hb x w (or_introl eq_refl)).
  destruct (body' x w) as [[[t|ex] w1]|]; try reflexivity.
  apply IH. intros y w2 Hy. apply Hb. now right.
Qed.

Section SameButMail.

Variables e e' : env.
Hypothesis same_api : forall q start, api e q start = api e' q start.
Hypothesis same_clock : forall n, clock e n = clock e' n.
Hypothesis same_lib : lib e = lib e'.
Hypothesis same_bind : forall v, bind_text e v = bind_text e' v.

Lemma as_stored_env (a : PressArticle) : as_stored e a = as_stored e' a.
Proof.
  unfold as_stored, stored_date.
  destruct (publish_date a); try reflexivity; now rewrite same_bind.
Qed.

Lemma insert_row_env (a : PressArticle) (w : world) :
  insert_row e a w = insert_row e' a w.
Proof. now rewrite !insert_row_eq, as_stored_env, same_clock. Qed.

Lemma session_flush_env (w : world) : session_flush e w = session_flush e' w.
Proof.
  unfold session_flush. rewrite !bind_get, !bind_run.
  rewrite (for_each_ext _ (insert_row e) (insert_row e'));
    [reflexivity | intros; apply insert_row_env].
Qed.

Lemma session_commit_env (w : world) : session_commit e w = session_commit e' w.
Proof. unfold session_commit. now rewrite !bind_run, session_flush_env. Qed.

Lemma scan_item_env (query : string) (it : item) (w : world) :
  scan_item e query it w = scan_item e' query it w.
Proof.
  unfold scan_item.
  destruct (String.eqb _ EmptyString); [reflexivity|].
  rewrite !bind_run. unfold query_first_by_url. rewrite !bind_run.
  now rewrite session_flush_env, same_lib.
Qed.

Lemma pages_from_env (fuel : nat) (q : string) :
  forall start results,
    pages_from e fuel q start results = pages_from e' fuel q start results.
Proof.
  induction fuel as [|fuel IH]; intros start results; [reflexivity|].
  cbn [pages_from]. rewrite same_api.
  destruct (api e' q start) as [x | [items|]]; try reflexivity.
  destruct (Z.of_nat (Datatypes.length items) <? 10)%Z; [reflexivity|].
  now rewrite IH.
Qed.

Lemma scan_domain_env (fuel : nat) (domain : string) (w : world) :
  scan_domain e fuel domain w = scan_domain e' fuel domain w.
Proof.
  unfold scan_domain. rewrite !bind_run.
  destruct (emit (Print (LogScanning domain)) w) as [[[t|x] w1]|]; try reflexivity.
  apply for_each_ext. intros query w2 _.
  unfold scan_query. rewrite !bind_run.
  destruct (emit (Print (LogQuery query)) w2) as [[[t'|x] w3]|]; try reflexivity.
  rewrite !bind_run, !google_search_eq, pages_from_env.
  destruct (pages_from e' fuel (search_q query domain) 1 []) as [[[items|x] starts]|];
    try reflexivity.
  apply for_each_ext. intros it w4 _. apply scan_item_env.
Qed.

Lemma scan_try_env (fuel : nat) (b : bool) (w : world) :
  match scan_try e fuel b w, scan_try e' fuel b w with
  | Some (r, w1), Some (r', w1') =>
      r = r' /\ db w1 = db w1' /\ txn w1 = txn w1' /\ pending w1 = pending w1'
      /\ ticks w1 = ticks w1'
  | None, None => True
  | _, _ => False
  end.
Proof.
  unfold scan_try. rewrite !bind_run.
  rewrite (for_each_ext _ (scan_domain e fuel) (scan_domain e' fuel))
    by (intros; apply scan_domain_env).
  destruct (for_each (map fst NEWS_MAP) (scan_domain e' fuel) w)
    as [[[t|x] ws]|]; [| now repeat split | exact I].
  rewrite !bind_run, session_commit_env.
  destruct (session_commit e' ws) as [[[t'|x] wc]|]; [| now repeat split | exact I].
  rewrite !bind_get.
  destruct (new_articles wc) as [|a rest] eqn:Hnew; [now repeat split|].
  destruct b; [|now repeat split].
  rewrite !send_email_eq. now repeat split.
Qed.

(** The table does not depend on the mail side.  In two environments with
    the same search API, clock, library and database, which may differ in
    the SMTP server and in the mail credentials, a scan leaves the same
    table and the same session state, and it logs a scan error in the one
    exactly when it does in the other. *)
Theorem scan_table_ignores_mail (fuel : nat) (b : bool) (w : world)
    (r : res (list PressArticle)) (w1 : world) :
  run_scan_and_save e fuel b w = Some (r, w1) ->
  exists r' w1',
    run_scan_and_save e' fuel b w = Some (r', w1')
    /\ db w1' = db w1 /\ ticks w1' = ticks w1
    /\ txn w1' = txn w1 /\ pending w1' = pending w1
    /\ scan_failed (events_since w w1') = scan_failed (events_since w w1).
Proof.
  rewrite !run_scan_and_save_eq.
  pose proof (scan_try_env fuel b (scan_start w)) as Hsame.
  pose proof (scan_try_trace e fuel b w) as Htr.
  pose proof (scan_try_trace e' fuel b w) as Htr'.
  destruct (scan_try e fuel b _) as [[rt wa]|]; [|discriminate].
  destruct (scan_try e' fuel b _) as [[rt' wa']|]; [|contradiction].
  destruct Hsame as (Hr & Hdb & Htxn & Hpend & Hticks). subst rt'.
  destruct (Htr _ _ eq_refl) as (evs & Hevs & Hok).
  destruct (Htr' _ _ eq_refl) as (evs' & Hevs' & Hok').
  destruct rt as [u|x]; intros H; injection H as <- <-.
  - eexists. eexists. split; [reflexivity|].
    cbn [closed db ticks txn pending set_pending set_txn].
    repeat (split; [congruence|]).
    rewrite (events_since_app w (closed wa) evs) by exact Hevs.
    rewrite (events_since_app w (closed wa') evs') by exact Hevs'.
    congruence.
  - eexists. eexists. split; [reflexivity|].
    cbn [closed add_events db ticks txn pending set_pending set_txn].
    repeat (split; [congruence|]).
    assert (Hshape : forall wb evb,
               trace wb = trace w ++ evb ->
               events_since w
                 (closed (add_events [Print (LogScanError x)]
                            (set_pending [] (set_txn [] wb))))
               = evb ++ [Print (LogScanError x)]).
    { intros wb evb Hb. apply events_since_app.
      unfold closed, add_events, set_pending, set_txn. simpl.
      now rewrite Hb, app_assoc. }
    rewrite (Hshape wa evs Hevs), (Hshape wa' evs' Hevs').
    now rewrite !scan_failed_app, Hok, Hok'.
Qed.

End SameButMail.

(** An instance: the overlapping searches with mail working, and with no
    credentials and a failing SMTP server. *)
Lemma scan_table_ignores_mail_witness :
  exists r w1 r' w1',
    run_scan_and_save (env_of_api api_overlap) 3 true empty_world = Some (r, w1)
    /\ run_scan_and_save (env_no_mail api_overlap) 3 true empty_world = Some (r', w1')
    /\ db w1' = db w1
    /\ scan_failed (events_since empty_world w1')
       = scan_failed (events_since empty_world w1).
Proof.
  destruct (run_scan_and_save (env_of_api api_overlap) 3 true empty_world)
    as [[r w1]|] eqn:Hrun.
  - destruct (scan_table_ignores_mail (env_of_api api_overlap) (env_no_mail api_overlap)
                (fun _ _ => eq_refl) (fun _ => eq_refl) eq_refl (fun _ => eq_refl)
                3 true empty_world r w1 Hrun)
      as (r' & w1' & Hrun' & Hdb & _ & _ & _ & Hfail).
    exists r, w1, r', w1'. split; [reflexivity|]. split; [exact Hrun'|].
    split; [exact Hdb | exact Hfail].
  - exfalso. vm_compute in Hrun. discriminate.
Defined.
(** ** The scan: rows, requests and clock readings *)

(** Every row a scan adds to the table has a URL that is not empty, the
    newspaper and the language that the classifier gives for that URL, and
    one of the four configured queries. *)
Theorem scan_rows_well_formed (e : env) (fuel : nat) (b : bool) (w : world)
    (r : res (list PressArticle)) (w' : world) :
  run_scan_and_save e fuel b w = Some (r, w') ->
  exists rows,
    db w' = db w ++ rows
    /\ Forall (fun row => record_ok (lib e) (art row)) rows.
Proof.
  intros Hrun.
  destruct (run_scan_and_save_anatomy e fuel b w r w' Hrun)
    as (found & evs & _ & _ & _ & _ & _ & _ & Hcases).
  destruct Hcases as [(rows & Hdb & Hart & _ & _ & _ & _ & Hrec & _) | (Hdb & _)].
  - exists rows. split; [exact Hdb|]. rewrite <- Hart in Hrec.
    exact (proj1 (Forall_map art (record_ok (lib e)) rows) Hrec).
  - exists []. split; [now rewrite app_nil_r | constructor].
Qed.

Lemma scan_rows_well_formed_witness :
  exists r w' rows,
    run_scan_and_save (env_of_api api_overlap) 3 false empty_world = Some (r, w')
    /\ db w' = db empty_world ++ rows
    /\ List.length rows = 3
    /\ Forall (fun row => record_ok plain_lib (art row)) rows.
Proof.
  assert (H : exists r w',
             run_scan_and_save (env_of_api api_overlap) 3 false empty_world = Some (r, w')
             /\ List.length (db w') = 3).
  { vm_compute. eexists. eexists. split; reflexivity. }
  destruct H as (r & w' & Hrun & Hlen).
  destruct (scan_rows_well_formed _ _ _ _ _ _ Hrun) as (rows & Hdb & Hok).
  exists r, w', rows. split; [exact Hrun|]. split; [exact Hdb|].
  split; [now rewrite Hdb in Hlen | exact Hok].
Defined.

(** Every request a scan sends has as [q] a configured query followed by
    " site:" and a configured domain, the query being of the set chosen for
    that domain: Sinhala phrases go to the Sinhala domains only, English ones
    to the others only. *)
Theorem scan_requests_configured_pairs (e : env) (fuel : nat) (b : bool) (w : world)
    (r : res (list PressArticle)) (w' : world) :
  run_scan_and_save e fuel b w = Some (r, w') ->
  forall q start, In (q, start) (get_calls (events_since w w')) ->
    exists domain query,
      In domain (map fst NEWS_MAP)
      /\ In query (if existsb (String.eqb domain) SINHALA_DOMAINS
                   then SINHALA_QUERIES else ENGLISH_QUERIES)
      /\ q = (query ++ " site:" ++ domain)%string.
Proof.
  intros Hrun q start Hin.
  destruct (run_scan_and_save_details e fuel b w r w' Hrun) as (found & _ & Hg & _).
  rewrite Forall_forall in Hg. specialize (Hg (q, start) Hin). cbn [fst] in Hg.
  unfold scan_queries in Hg. apply in_flat_map in Hg as (domain & Hd & Hq).
  apply in_map_iff in Hq as (query & <- & Hq).
  exists domain, query. split; [exact Hd|]. split; [exact Hq | reflexivity].
Qed.

Lemma scan_requests_configured_pairs_witness :
  exists domain query,
    In domain (map fst NEWS_MAP)
    /\ In query (if existsb (String.eqb domain) SINHALA_DOMAINS
                 then SINHALA_QUERIES else ENGLISH_QUERIES)
    /\ first_q = (query ++ " site:" ++ domain)%string.
Proof.
  destruct (run_scan_and_save (env_of_api api_overlap) 3 false empty_world)
    as [[r w']|] eqn:Hrun.
  - apply (scan_requests_configured_pairs _ _ _ _ _ _ Hrun first_q 1%Z).
    revert Hrun. vm_compute. intros H. injection H as _ <-. left. reflexivity.
  - exfalso. vm_compute in Hrun. discriminate.
Defined.

(** A scan that logs no scan error reads the clock once per new record, in
    order: the [i]-th returned record is stored right after the old rows with
    [created_at] equal to the [i]-th reading after those taken before the
    scan. *)
Theorem scan_rows_carry_clock_readings (e : env) (fuel : nat) (b : bool) (w : world)
    (found : list PressArticle) (w' : world) :
  run_scan_and_save e fuel b w = Some (Ok found, w') ->
  scan_failed (events_since w w') = false ->
  List.length (db w') = List.length (db w) + List.length found
  /\ ticks w' = ticks w + List.length found
  /\ forall i a, nth_error found i = Some a ->
       nth_error (db w') (List.length (db w) + i)
       = Some (mkRow a (clock e (ticks w + i))).
Proof.
  intros Hrun Hok.
  destruct (run_scan_and_save_details e fuel b w _ w' Hrun) as (found' & Hr & _ & Hd).
  injection Hr as <-. destruct (Hd Hok) as (Hdb & Hticks & _).
  split; [now rewrite Hdb, length_app, stamp_length|]. split; [exact Hticks|].
  intros i a Hi. rewrite Hdb, nth_error_app2 by lia.
  replace (Datatypes.length (db w) + i - Datatypes.length (db w)) with i by lia.
  now apply stamp_nth.
Qed.

Lemma scan_rows_carry_clock_readings_witness :
  exists found w',
    run_scan_and_save (env_seconds api_overlap) 3 false empty_world = Some (Ok found, w')
    /\ List.length (db w') = List.length (db empty_world) + List.length found
    /\ ticks w' = ticks empty_world + List.length found.
Proof.
  assert (H : exists found w',
             run_scan_and_save (env_seconds api_overlap) 3 false empty_world
             = Some (Ok found, w')
             /\ scan_failed (events_since empty_world w') = false).
  { vm_compute. eexists. eexists. split; reflexivity. }
  destruct H as (found & w' & Hrun & Hok).
  destruct (scan_rows_carry_clock_readings _ _ _ _ _ _ Hrun Hok) as (Hlen & Hticks & _).
  exists found, w'. split; [exact Hrun|]. split; [exact Hlen | exact Hticks].
Defined.

(** ** The daily job mails what its own scan found *)

(** When the scan of the daily job commits a batch, and the clock readings
    taken for the new rows are neither later than the reading taken for the
    window nor more than a day earlier, every record of the batch is in the
    list handed to [send_email] under the daily subject. *)
Theorem daily_job_mails_its_own_finds (e : env) (fuel : nat) (w : world)
    (found : list PressArticle) (w1 : world) :
  run_scan_and_save e fuel false w = Some (Ok found, w1) ->
  scan_failed (events_since w w1) = false ->
  (forall i, i < List.length found ->
     (clock e (ticks w + List.length found) - ONE_DAY <= clock e (ticks w + i)
      <= clock e (ticks w + List.length found))%Z) ->
  exists w2,
    daily_job e fuel w = Some (Ok tt, w2)
    /\ forall a, In a found ->
         exists mailed,
           notifications (events_since w1 w2)
           = [(mailed, "Cargills Press Monitoring – Daily Report (Last 24 hours)")]
           /\ In a mailed.
Proof.
  intros Hrun Hok Hclock.
  destruct (run_scan_and_save_details e fuel false w _ w1 Hrun)
    as (found' & Hr & _ & Hd).
  injection Hr as <-. destruct (Hd Hok) as (Hdb & Hticks & _).
  eexists. split.
  { unfold daily_job. rewrite bind_run, Hrun. apply daily_report_run. }
  intros a Ha.
  unfold events_since, add_events. cbn [trace].
  rewrite skipn_app, skipn_all, Nat.sub_diag. cbn [skipn app].
  apply In_nth_error in Ha as [i Hi].
  assert (Hlt : i < Datatypes.length found) by (apply nth_error_Some; congruence).
  assert (Hrow : In (mkRow a (clock e (ticks w + i)))
                   (order_by_created_at_desc
                      (filter (in_window (clock e (ticks w1) - ONE_DAY) (clock e (ticks w1)))
                         (db w1)))).
  { apply (Permutation_in _ (order_by_perm _)). apply filter_In. split.
    - rewrite Hdb. apply in_or_app. right.
      exact (nth_error_In _ _ (stamp_nth e found (ticks w) i a Hi)).
    - apply in_window_iff. rewrite Hticks. cbn [created_at]. now apply Hclock. }
  destruct (order_by_created_at_desc _) as [|r rest]; [destruct Hrow|].
  exists (map art (r :: rest)). split; [apply email_events_notifications|].
  exact (in_map art _ _ Hrow).
Qed.

Lemma daily_job_mails_its_own_finds_witness :
  exists found w1 w2,
    run_scan_and_save (env_seconds api_overlap) 3 false empty_world = Some (Ok found, w1)
    /\ daily_job (env_seconds api_overlap) 3 empty_world = Some (Ok tt, w2)
    /\ forall a, In a found ->
         exists mailed,
           notifications (events_since w1 w2)
           = [(mailed, "Cargills Press Monitoring – Daily Report (Last 24 hours)")]
           /\ In a mailed.
Proof.
  assert (H : exists found w1,
             run_scan_and_save (env_seconds api_overlap) 3 false empty_world
             = Some (Ok found, w1)
             /\ scan_failed (events_since empty_world w1) = false
             /\ List.length found = 3).
  { vm_compute. eexists. eexists. split; [reflexivity|]. split; reflexivity. }
  destruct H as (found & w1 & Hrun & Hok & Hlen).
  destruct (daily_job_mails_its_own_finds _ _ _ _ _ Hrun Hok) as (w2 & Hjob & Hall).
  - intros i Hi. rewrite Hlen in *. unfold env_seconds, ONE_DAY. cbn [clock ticks empty_world].
    lia.
  - exists found, w1, w2. split; [exact Hrun|]. split; [exact Hjob | exact Hall].
Defined.
